(** * Order and payment lifecycle of the pet shop (routes/payment.js)

    A shallow embedding of the payment routes

      - POST /api/payment/create-intent   ([create_intent])
      - POST /api/payment/confirm         ([confirm])
      - POST /api/payment/webhook         ([webhook], [server_webhook])
      - GET  /api/payment/history         ([history])

    over the SQLite tables they read and write (database/init.js), with the
    [protect] middleware in front of the private ones (middleware/auth.js)
    and the middleware server.js mounts in front of the router.

    Modelling decisions, all taken from the source:

    - A table is the list of its rows, in insertion order.  [SELECT ... WHERE]
      with [db.get] is [find], [UPDATE ... WHERE] rewrites every row that
      satisfies the condition, [INSERT] appends a row whose id is one more
      than the largest id of the table (AUTOINCREMENT, no row of these
      tables is ever deleted by the application).
    - Every [db.run] of the routes is one autocommitted SQL statement: the
      source opens no transaction anywhere.  A handler is therefore modelled
      by the response it sends together with the list of statements it
      issues ([writes]), in the order in which it issues them, and the
      states the database goes through are the states after each prefix of
      that list ([during]).
    - Amounts (DECIMAL columns read into JavaScript numbers) are binary64
      floating-point numbers, with the arithmetic and the comparisons of the
      language ([+], [*], [===], [Math.round]).  Every pet and product of
      the catalogue has a price: [shop_products.price] is NOT NULL, and a pet
      is inserted with a price by the seed and by the route that adds pets
      (routes/pets.js), which requires one.  Ids, quantities and stock are
      integers, as the validators and the INTEGER columns have them; a
      quantity enters the arithmetic through [Number].
    - Text is UTF-8.  The sanitizers and validators of express-validator
      ([trim], [isLength], [notEmpty]) are those of validator.js: [trim]
      removes the white space of JavaScript's [\s], [isLength] counts code
      points without variation selectors.
    - The payment processor (the [stripe] object) is external: it is a record
      of functions, [None] standing for a rejected promise or a thrown error.
    - [Date.now()], [uuidv4()] and CURRENT_TIMESTAMP are inputs of the
      handlers ([orderNumber], [now]).
    - Statements succeed unless a constraint of the schema that the handler
      can meet fails (UNIQUE on [orders.order_number], NOT NULL on
      [orders.total_amount], SQLite storing NaN as NULL); I/O errors of the
      database are not modelled.
    - In create-intent the catalogue look-ups are callbacks that run while the
      handler sleeps 100 ms ("Wait for all database queries to complete").
      They all complete during the wait, in an order the database decides:
      the order is an input of the handler ([schedule], [completion]).
    - A response is sent at most once per request.  A second [res.json]
      throws; thrown from a database callback or a promise it reaches the
      handlers server.js installs for uncaught exceptions and unhandled
      rejections, which exit the process ([exits]): what the handler had
      not yet got the database to run is never run. *)

From Stdlib Require Import ZArith QArith List String Ascii Bool Lia Permutation.
From Stdlib Require Import PrimFloat FloatOps SpecFloat.
Import ListNotations.

Local Open Scope string_scope.
Local Open Scope Z_scope.

(** ** JavaScript numbers *)

(** [Number(q)] for an integer [q]: the nearest binary64 number, ties to
    even, [Infinity] beyond the range. *)
Definition Number (q : Z) : float :=
  SF2Prim (binary_normalize prec emax q 0 false).

(** [Math.round]: the nearest integer, ties towards +Infinity; zeros,
    infinities and NaN are returned as they are, and a result of zero keeps
    the sign of the argument. *)
Definition Math_round (x : float) : float :=
  match Prim2SF x with
  | S754_finite sign m e =>
      if 0 <=? e then x
      else
        let n := (2 * (if sign then Z.neg m else Z.pos m) + 2 ^ (- e)) / 2 ^ (- e + 1) in
        if n =? 0 then (if sign then neg_zero else zero) else Number n
  | _ => x
  end.

(** The rational a finite binary64 number stands for, in lowest terms. *)
Definition value (x : float) : option Q :=
  match Prim2SF x with
  | S754_zero _ => Some 0%Q
  | S754_finite sign m e =>
      let n := if sign then Z.neg m else Z.pos m in
      Some (Qred (if 0 <=? e then inject_Z (n * 2 ^ e) else (n # Z.to_pos (2 ^ (- e)))))
  | _ => None
  end.

(** ** Rows and tables *)

Record pet_row := mk_pet {
  pet_id : Z;
  pet_name : string;
  pet_price : float;
  pet_is_available : bool
}.

Record product_row := mk_product {
  product_id : Z;
  product_name : string;
  product_price : float;
  stock_quantity : Z;
  product_is_available : bool
}.

Record order_row := mk_order {
  order_id : Z;
  order_user_id : Z;
  order_number : string;
  total_amount : float;
  order_status : string;
  payment_status : string;
  shipping_address : string;
  billing_address : string;
  order_notes : option string;
  order_updated_at : Z
}.

Record order_item_row := mk_order_item {
  oi_id : Z;
  oi_order_id : Z;
  item_type : string;
  item_id : Z;
  quantity : Z;
  oi_price : float
}.

Record payment_row := mk_payment {
  payment_id : Z;
  payment_order_id : Z;
  stripe_payment_intent_id : string;
  amount : float;
  status : string;
  payment_method : option string;
  transaction_id : option string;
  payment_updated_at : Z
}.

Record store := mk_store {
  pets : list pet_row;
  shop_products : list product_row;
  orders : list order_row;
  order_items : list order_item_row;
  payments : list payment_row
}.

(** The id an AUTOINCREMENT column gives to the next inserted row. *)
Definition next_id (ids : list Z) : Z := 1 + fold_right Z.max 0 ids.

(** ** SQL statements issued by the routes *)

Inductive stmt :=
| InsertOrder (user_id : Z) (number : string) (total : float)
              (shipping billing : string) (notes : option string)
| InsertOrderItem (order : Z) (type : string) (item qty : Z) (price : float)
| InsertPayment (order : Z) (intent : string) (amt : float) (st : string)
| UpdateOrderStatus (st pay_st : string) (id : Z)
| UpdatePaymentRecord (st : string) (method : option string) (txn : string)
                      (order : Z) (intent : string)
| UpdateStock (qty id : Z)
| UpdatePetUnavailable (id : Z)
| UpdatePaymentStatus (st intent : string).

Definition order_number_taken (s : store) (number : string) : bool :=
  existsb (fun o => (order_number o =? number)%string) (orders s).

(** [INSERT INTO orders] fails on an order number already used (UNIQUE) and
    on a total that is NaN, which SQLite stores as NULL (NOT NULL). *)
Definition order_insert_fails (s : store) (number : string) (total : float) : bool :=
  order_number_taken s number || is_nan total.

Definition set_order_status (st pay_st : string) (now : Z) (o : order_row) : order_row :=
  mk_order (order_id o) (order_user_id o) (order_number o) (total_amount o)
           st pay_st (shipping_address o) (billing_address o) (order_notes o) now.

Definition set_payment_record (st : string) (method : option string) (txn : string)
           (now : Z) (p : payment_row) : payment_row :=
  mk_payment (payment_id p) (payment_order_id p) (stripe_payment_intent_id p)
             (amount p) st method (Some txn) now.

Definition set_payment_status (st : string) (p : payment_row) : payment_row :=
  mk_payment (payment_id p) (payment_order_id p) (stripe_payment_intent_id p)
             (amount p) st (payment_method p) (transaction_id p) (payment_updated_at p).

Definition set_stock (q : Z) (p : product_row) : product_row :=
  mk_product (product_id p) (product_name p) (product_price p) q (product_is_available p).

Definition set_pet_available (b : bool) (p : pet_row) : pet_row :=
  mk_pet (pet_id p) (pet_name p) (pet_price p) b.

(** One statement, executed at time [now]. *)
Definition exec (now : Z) (q : stmt) (s : store) : store :=
  match q with
  | InsertOrder user number total shipping billing notes =>
      if order_insert_fails s number total then s
      else mk_store (pets s) (shop_products s)
             (orders s ++ [mk_order (next_id (map order_id (orders s))) user number total
                                    "pending" "pending" shipping billing notes now])
             (order_items s) (payments s)
  | InsertOrderItem order type item qty price =>
      mk_store (pets s) (shop_products s) (orders s)
        (order_items s ++ [mk_order_item (next_id (map oi_id (order_items s)))
                                         order type item qty price])
        (payments s)
  | InsertPayment order intent amt st =>
      mk_store (pets s) (shop_products s) (orders s) (order_items s)
        (payments s ++ [mk_payment (next_id (map payment_id (payments s)))
                                   order (* stripe_payment_intent_id *) intent amt st
                                   None None now])
  | UpdateOrderStatus st pay_st id =>
      mk_store (pets s) (shop_products s)
        (map (fun o => if order_id o =? id then set_order_status st pay_st now o else o)
             (orders s))
        (order_items s) (payments s)
  | UpdatePaymentRecord st method txn order intent =>
      mk_store (pets s) (shop_products s) (orders s) (order_items s)
        (map (fun p => if (payment_order_id p =? order)
                          && (stripe_payment_intent_id p =? intent)%string
                       then set_payment_record st method txn now p else p)
             (payments s))
  | UpdateStock qty id =>
      mk_store (pets s)
        (map (fun p => if product_id p =? id
                       then set_stock (stock_quantity p - qty) p else p)
             (shop_products s))
        (orders s) (order_items s) (payments s)
  | UpdatePetUnavailable id =>
      mk_store
        (map (fun p => if pet_id p =? id then set_pet_available false p else p) (pets s))
        (shop_products s) (orders s) (order_items s) (payments s)
  | UpdatePaymentStatus st intent =>
      mk_store (pets s) (shop_products s) (orders s) (order_items s)
        (map (fun p => if (stripe_payment_intent_id p =? intent)%string
                       then set_payment_status st p else p)
             (payments s))
  end.

(** The statements of a handler, run one after the other. *)
Definition run (now : Z) (qs : list stmt) (s : store) : store :=
  fold_left (fun acc q => exec now q acc) qs s.

(** The state of the database once the first [k] statements have run. *)
Definition during (now : Z) (qs : list stmt) (k : nat) (s : store) : store :=
  run now (firstn k qs) s.

(** ** The payment processor *)

Record payment_intent := mk_intent {
  pi_id : string;
  pi_client_secret : string;
  pi_status : string;
  pi_payment_method : option string
}.

Record event := mk_event {
  ev_type : string;
  ev_object : payment_intent          (* event.data.object *)
}.

Record gateway := mk_gateway {
  (* stripe.paymentIntents.create: amount, then the metadata orderId,
     orderNumber and userId *)
  paymentIntents_create : float -> Z -> string -> Z -> option payment_intent;
  (* stripe.paymentIntents.retrieve *)
  paymentIntents_retrieve : string -> option payment_intent;
  (* stripe.webhooks.constructEvent on the raw text of a request: raw body,
     signature header, secret; None when it throws, that is when the
     signature does not verify *)
  constructEvent : string -> string -> string -> option event
}.

(** ** Requests and responses *)

(** One element of [req.body.items].  The handler reads [type], [id] and
    [quantity]; whatever else the client put in the object (a price, a name)
    is in [ci_other] as property name and value. *)
Record cart_item := mk_cart_item {
  ci_type : string;
  ci_id : Z;
  ci_quantity : option Z;
  ci_other : list (string * Z)
}.

Record create_request := mk_create_request {
  items : list cart_item;
  shippingAddress : string;
  billingAddress : option string;
  notes : option string
}.

Record confirm_request := mk_confirm_request {
  paymentIntentId : string;
  orderId : Z
}.

(** [req.body] as the webhook route finds it: the bytes of the request, when
    [express.raw] has read them, or an object, when a JSON body parser has
    run before. *)
Inductive request_body :=
| RawBody (bytes : string)
| ParsedBody.

Inductive response :=
| ValidationFailed                                   (* 400 *)
| PetNotFound (id : Z)                               (* 400 *)
| PetNotAvailable (name : string)                    (* 400 *)
| ProductNotFound (id : Z)                           (* 400 *)
| ProductNotAvailable (name : string)                (* 400 *)
| NoValidItems                                       (* 400 *)
| ErrorCreatingOrder                                 (* 500 *)
| ErrorCreatingPaymentIntent                         (* 500 *)
| IntentCreated (clientSecret : string) (order : Z)
                (number : string) (total : float)    (* 200 *)
| ServerError                                        (* 500 *)
| PaymentNotCompleted                                (* 400 *)
| OrderNotFound                                      (* 404 *)
| OrderAlreadyProcessed                              (* 400 *)
| PaymentConfirmed                                   (* 200 *)
| WebhookError                                       (* 400 *)
| WebhookReceived.                                   (* 200 *)

(** The error classes of the specification, read off the responses. *)
Definition ItemUnavailable (r : response) : bool :=
  match r with
  | PetNotFound _ | PetNotAvailable _ | ProductNotFound _ | ProductNotAvailable _ => true
  | _ => false
  end.


Definition InvalidSignature (r : response) : bool :=
  match r with WebhookError => true | _ => false end.

(** What a handler did: the response the client got, the statements the
    database ran for it, in order, and whether the request ended with the
    process exiting. *)
Record outcome := mk_outcome {
  sent : response;
  writes : list stmt;
  exits : bool
}.

(** ** Validation chains (express-validator over validator.js) *)

Definition is_byte (n : N) (c : ascii) : bool := (N_of_ascii c =? n)%N.

(** White space of [\s], by the bytes of its UTF-8 encoding: the six ASCII
    characters, U+00A0, and U+1680, U+2000 to U+200A, U+2028, U+2029, U+202F,
    U+205F, U+3000, U+FEFF. *)
Definition is_space (c : ascii) : bool :=
  match N_of_ascii c with
  | 9%N | 10%N | 11%N | 12%N | 13%N | 32%N => true
  | _ => false
  end.

Definition is_space2 (c1 c2 : ascii) : bool := is_byte 194 c1 && is_byte 160 c2.

Definition is_space3 (c1 c2 c3 : ascii) : bool :=
  (is_byte 225 c1 && is_byte 154 c2 && is_byte 128 c3)
  || (is_byte 226 c1 && is_byte 128 c2
      && (((128 <=? N_of_ascii c3)%N && (N_of_ascii c3 <=? 138)%N)
          || is_byte 168 c3 || is_byte 169 c3 || is_byte 175 c3))
  || (is_byte 226 c1 && is_byte 129 c2 && is_byte 159 c3)
  || (is_byte 227 c1 && is_byte 128 c2 && is_byte 128 c3)
  || (is_byte 239 c1 && is_byte 187 c2 && is_byte 191 c3).

(** Removes the white space a text starts with; on a text read backwards
    ([back]) the bytes of a character come last first. *)
Fixpoint strip (back : bool) (s : string) : string :=
  match s with
  | EmptyString => EmptyString
  | String c1 r1 =>
      if is_space c1 then strip back r1
      else
        match r1 with
        | String c2 r2 =>
            if (if back then is_space2 c2 c1 else is_space2 c1 c2) then strip back r2
            else
              match r2 with
              | String c3 r3 =>
                  if (if back then is_space3 c3 c2 c1 else is_space3 c1 c2 c3)
                  then strip back r3
                  else s
              | EmptyString => s
              end
        | EmptyString => s
        end
  end.

Definition reverse (s : string) : string :=
  string_of_list_ascii (rev (list_ascii_of_string s)).

Definition ltrim (s : string) : string := strip false s.

Definition rtrim (s : string) : string := reverse (strip true (reverse s)).

(** [trim()]. *)
Definition trim (s : string) : string := rtrim (ltrim s).

(** Code points of a text: the bytes that do not continue a character. *)
Fixpoint code_points (s : string) : nat :=
  match s with
  | EmptyString => 0
  | String c r =>
      ((if (128 <=? N_of_ascii c)%N && (N_of_ascii c <? 192)%N then 0 else 1)
       + code_points r)%nat
  end.

(** Occurrences of the variation selectors U+FE0E and U+FE0F. *)
Fixpoint variation_selectors (s : string) : nat :=
  match s with
  | EmptyString => 0
  | String c1 r1 =>
      ((match r1 with
        | String c2 (String c3 _) =>
            if is_byte 239 c1 && is_byte 184 c2 && (is_byte 142 c3 || is_byte 143 c3)
            then 1 else 0
        | _ => 0
        end) + variation_selectors r1)%nat
  end.

(** The length [isLength] compares with its bounds. *)
Definition validator_length (s : string) : nat :=
  (code_points s - variation_selectors s)%nat.

Definition valid_item (it : cart_item) : bool :=
  ((ci_type it =? "pet")%string || (ci_type it =? "product")%string)
  && (1 <=? ci_id it)
  && match ci_quantity it with None => true | Some q => 1 <=? q end.

Definition valid_create (rq : create_request) : bool :=
  negb (Nat.eqb (List.length (items rq)) 0)
  && forallb valid_item (items rq)
  && Nat.leb 10 (validator_length (trim (shippingAddress rq))).

Definition valid_confirm (rq : confirm_request) : bool :=
  negb (trim (paymentIntentId rq) =? "")%string && (1 <=? orderId rq).

(** ** POST /api/payment/create-intent *)

(** An element of the handler's [orderItems] array. *)
Record order_item := mk_item {
  it_type : string;
  it_id : Z;
  it_name : string;
  it_price : float;
  it_quantity : Z
}.

(** The variables the look-up callbacks share: [totalAmount], [orderItems],
    the response already sent, if any, and whether the process has exited. *)
Record lookups := mk_lookups {
  totalAmount : float;
  orderItems : list order_item;
  answered : option response;
  exited : bool
}.

(** [return res.status(..).json(..)] in a look-up callback: the first one
    sends the response; another one throws in the database callback, and the
    uncaught exception exits the process. *)
Definition send (r : response) (a : lookups) : lookups :=
  match answered a with
  | None => mk_lookups (totalAmount a) (orderItems a) (Some r) (exited a)
  | Some _ => mk_lookups (totalAmount a) (orderItems a) (answered a) true
  end.

(** Callback of the [db.get] of one cart item; no callback runs once the
    process has exited. *)
Definition lookup_item (s : store) (a : lookups) (item : cart_item) : lookups :=
  if exited a then a
  else
  let quantity := match ci_quantity item with Some q => q | None => 1 end in
  if (ci_type item =? "pet")%string then
    match find (fun p => pet_id p =? ci_id item) (pets s) with
    | None => send (PetNotFound (ci_id item)) a
    | Some pet =>
        if negb (pet_is_available pet) then send (PetNotAvailable (pet_name pet)) a
        else mk_lookups (totalAmount a + pet_price pet * Number quantity)%float
                        (orderItems a ++
                           [mk_item "pet" (pet_id pet) (pet_name pet) (pet_price pet) quantity])
                        (answered a) (exited a)
    end
  else if (ci_type item =? "product")%string then
    match find (fun p => product_id p =? ci_id item) (shop_products s) with
    | None => send (ProductNotFound (ci_id item)) a
    | Some product =>
        if negb (product_is_available product) || (stock_quantity product <? quantity)
        then send (ProductNotAvailable (product_name product)) a
        else mk_lookups (totalAmount a + product_price product * Number quantity)%float
                        (orderItems a ++
                           [mk_item "product" (product_id product) (product_name product)
                                    (product_price product) quantity])
                        (answered a) (exited a)
    end
  else a.

(** The look-ups of a request, in the order [done] in which their callbacks
    run. *)
Definition lookup_items (s : store) (done : list cart_item) : lookups :=
  fold_left (lookup_item s) done (mk_lookups 0 [] None false).

(** Takes the [n]-th of the pending look-ups out of them (the first one when
    there is no [n]-th). *)
Fixpoint extract {A} (n : nat) (pending : list A) : option (A * list A) :=
  match pending with
  | [] => None
  | x :: rest =>
      match n with
      | O => Some (x, rest)
      | S n' =>
          match extract n' rest with
          | Some (y, others) => Some (y, x :: others)
          | None => Some (x, rest)
          end
      end
  end.

(** The order in which the look-ups of a cart complete: [schedule] names, one
    after the other, which of the pending look-ups completes next; those left
    when it ends complete in the order they were issued. *)
Fixpoint completion {A} (schedule : list nat) (pending : list A) : list A :=
  match schedule with
  | [] => pending
  | n :: later =>
      match extract n pending with
      | Some (x, others) => x :: completion later others
      | None => []
      end
  end.

(** [res.json] after the wait: the response the client has got, and whether
    the call threw because a look-up had answered already, which exits the
    process. *)
Definition reply (a : lookups) (r : response) : response :=
  match answered a with Some r0 => r0 | None => r end.

Definition reply_throws (a : lookups) : bool :=
  match answered a with Some _ => true | None => false end.

Definition insert_order_items (order : Z) (l : list order_item) : list stmt :=
  map (fun item => InsertOrderItem order (it_type item) (it_id item) (it_quantity item) (it_price item)) l.

Definition create_intent (gw : gateway) (orderNumber : string) (schedule : list nat)
           (userId : Z) (rq : create_request) (s : store) : outcome :=
  if negb (valid_create rq) then mk_outcome ValidationFailed [] false
  else
    let shipping := trim (shippingAddress rq) in
    let billing :=
      match option_map trim (billingAddress rq) with
      | Some b => if (b =? "")%string then shipping else b      (* billingAddress || shippingAddress *)
      | None => shipping
      end in
    let a := lookup_items s (completion schedule (items rq)) in
    if exited a then mk_outcome (reply a ServerError) [] true
    else if (totalAmount a =? 0)%float
    then mk_outcome (reply a NoValidItems) [] (reply_throws a)
    else
      let order := InsertOrder userId orderNumber (totalAmount a) shipping billing (notes rq) in
      if order_insert_fails s orderNumber (totalAmount a)
      then mk_outcome (reply a ErrorCreatingOrder) [order] (reply_throws a)
      else
        let lastID := next_id (map order_id (orders s)) in
        let inserts := order :: insert_order_items lastID (orderItems a) in
        match paymentIntents_create gw (Math_round (totalAmount a * 100)%float)
                                    lastID orderNumber userId with
        | Some paymentIntent =>
            (* the payment insert is handed to the database just before
               res.json; when that throws, the process exits before the
               database has run it *)
            if reply_throws a then mk_outcome (reply a ServerError) inserts true
            else
              mk_outcome
                (IntentCreated (pi_client_secret paymentIntent) lastID orderNumber
                               (totalAmount a))
                (inserts ++ [InsertPayment lastID (pi_id paymentIntent) (totalAmount a) "pending"])
                false
        | None => mk_outcome (reply a ErrorCreatingPaymentIntent) inserts (reply_throws a)
        end.

(** ** POST /api/payment/confirm *)

(** The [orderItems.forEach] of the confirmation. *)
Definition item_update (item : order_item_row) : list stmt :=
  if (item_type item =? "product")%string then [UpdateStock (quantity item) (item_id item)]
  else if (item_type item =? "pet")%string then [UpdatePetUnavailable (item_id item)]
  else [].

Definition items_of_order (s : store) (order : Z) : list order_item_row :=
  filter (fun i => oi_order_id i =? order) (order_items s).

Definition confirm (gw : gateway) (userId : Z) (rq : confirm_request) (s : store) : outcome :=
  if negb (valid_confirm rq) then mk_outcome ValidationFailed [] false
  else
    let paymentIntentId := trim (paymentIntentId rq) in
    match paymentIntents_retrieve gw paymentIntentId with
    | None => mk_outcome ServerError [] false
    | Some paymentIntent =>
        if negb (pi_status paymentIntent =? "succeeded")%string
        then mk_outcome PaymentNotCompleted [] false
        else
          match find (fun o => (order_id o =? orderId rq) && (order_user_id o =? userId))
                     (orders s) with
          | None => mk_outcome OrderNotFound [] false
          | Some order =>
              if negb (order_status order =? "pending")%string
              then mk_outcome OrderAlreadyProcessed [] false
              else
                mk_outcome PaymentConfirmed
                  (UpdateOrderStatus "confirmed" "paid" (orderId rq)
                   :: UpdatePaymentRecord "completed" (pi_payment_method paymentIntent)
                                          (pi_id paymentIntent) (orderId rq) paymentIntentId
                   :: flat_map item_update (items_of_order s (orderId rq)))
                  false
          end
    end.

(** ** POST /api/payment/webhook *)

(** [stripe.webhooks.constructEvent(req.body, sig, secret)]: the library
    verifies the signature over the raw text of the request and parses that
    text; handed an object instead, it throws. *)
Definition construct_event (gw : gateway) (body : request_body) (sig secret : string)
  : option event :=
  match body with
  | RawBody bytes => constructEvent gw bytes sig secret
  | ParsedBody => None
  end.

(** The handler of the route. *)
Definition webhook (gw : gateway) (secret : string) (body : request_body) (sig : string)
  : outcome :=
  match construct_event gw body sig secret with
  | None => mk_outcome WebhookError [] false
  | Some event =>
      if (ev_type event =? "payment_intent.succeeded")%string
      then mk_outcome WebhookReceived
                      [UpdatePaymentStatus "completed" (pi_id (ev_object event))] false
      else if (ev_type event =? "payment_intent.payment_failed")%string
      then mk_outcome WebhookReceived
                      [UpdatePaymentStatus "failed" (pi_id (ev_object event))] false
      else mk_outcome WebhookReceived [] false
  end.

(** server.js mounts [express.json()] on every path before the payment
    router.  A delivery that reaches the route has gone through it: its body
    has been parsed, or, for a body that is not JSON by its content type,
    replaced by an empty object; the [express.raw] of the route then leaves
    [req.body] alone.  (A body that does not parse is answered by the error
    handler and never reaches the route.) *)
Definition body_after_express_json (raw : string) : request_body := ParsedBody.

(** The webhook as the server runs it, for a delivery with the given raw
    body and signature header. *)
Definition server_webhook (gw : gateway) (secret raw sig : string) : outcome :=
  webhook gw secret (body_after_express_json raw) sig.

(** The database after a handler has run all its statements. *)
Definition after (now : Z) (o : outcome) (s : store) : store := run now (writes o) s.

(** ** GET /api/payment/history *)

(** A row of the history: the selected columns of the order and, from the
    LEFT JOIN, those of one of its payments, absent when the order has none.
    [o.created_at] is not a column of this model, and with it goes the
    [ORDER BY o.created_at DESC]: [history] gives the rows of the answer in
    table order, and the properties below are about which rows are
    returned. *)
Record history_row := mk_history {
  h_id : Z;
  h_order_number : string;
  h_total_amount : float;
  h_status : string;
  h_payment_status : string;
  h_payment_status_detail : option string;
  h_payment_method : option string;
  h_transaction_id : option string
}.

Definition payments_of_order (s : store) (order : Z) : list payment_row :=
  filter (fun p => payment_order_id p =? order) (payments s).

Definition history_of_order (s : store) (o : order_row) : list history_row :=
  match payments_of_order s (order_id o) with
  | [] => [mk_history (order_id o) (order_number o) (total_amount o) (order_status o)
                      (payment_status o) None None None]
  | ps => map (fun p => mk_history (order_id o) (order_number o) (total_amount o)
                                   (order_status o) (payment_status o)
                                   (Some (status p)) (payment_method p) (transaction_id p))
              ps
  end.

Definition history (userId : Z) (s : store) : list history_row :=
  flat_map (history_of_order s) (filter (fun o => order_user_id o =? userId) (orders s)).

(** ** middleware/auth.js: protect *)

(** The columns [protect] selects from users. *)
Record user_row := mk_user {
  user_id : Z;
  username : string;
  email : string;
  full_name : string;
  role : string;
  is_active : bool
}.

(** What [protect] takes from outside the request: the users table, and
    [jwt.verify] under JWT_SECRET, giving [decoded.id] ([None] when it
    throws). *)
Record auth_env := mk_auth_env {
  users : list user_row;
  jwt_verify : string -> option Z
}.

(** [String.prototype.split] with a one-character separator. *)
Fixpoint split (sep : ascii) (s : string) : list string :=
  match s with
  | EmptyString => [EmptyString]
  | String c r =>
      if Ascii.eqb c sep then EmptyString :: split sep r
      else match split sep r with
           | h :: t => String c h :: t
           | [] => [String c EmptyString]
           end
  end.

(** The [token] variable of [protect]: set from the Authorization header
    when that starts with Bearer. *)
Definition bearer_token (authorization : option string) : option string :=
  match authorization with
  | Some h => if String.prefix "Bearer" h then nth_error (split " " h) 1 else None
  | None => None
  end.

Inductive auth_failure :=
| NotAuthorized                 (* 401 'Not authorized to access this route' *)
| UserNotFoundOrInactive.       (* 401 'User not found or inactive' *)

(** [protect]: either a 401, or [req.user] for the next handler. *)
Definition protect (env : auth_env) (authorization : option string)
  : auth_failure + user_row :=
  match bearer_token authorization with
  | None => inl NotAuthorized
  | Some token =>
      if (token =? "")%string then inl NotAuthorized          (* !token *)
      else
        match jwt_verify env token with
        | None => inl NotAuthorized
        | Some decoded_id =>
            match find (fun u => user_id u =? decoded_id) (users env) with
            | None => inl UserNotFoundOrInactive
            | Some user =>
                if negb (is_active user) then inl UserNotFoundOrInactive
                else inr user
            end
        end
  end.

(** ** The private routes: [protect], then the handler with [req.user.id] *)

Definition create_intent_route (env : auth_env) (gw : gateway) (orderNumber : string)
           (schedule : list nat) (authorization : option string) (rq : create_request)
           (s : store)
  : auth_failure + outcome :=
  match protect env authorization with
  | inl e => inl e
  | inr user => inr (create_intent gw orderNumber schedule (user_id user) rq s)
  end.

Definition confirm_route (env : auth_env) (gw : gateway)
           (authorization : option string) (rq : confirm_request) (s : store)
  : auth_failure + outcome :=
  match protect env authorization with
  | inl e => inl e
  | inr user => inr (confirm gw (user_id user) rq s)
  end.

Definition history_route (env : auth_env) (authorization : option string) (s : store)
  : auth_failure + list history_row :=
  match protect env authorization with
  | inl e => inl e
  | inr user => inr (history (user_id user) s)
  end.

(** ** Fixtures: seed rows of database/init.js (one pet already sold) and a
    test processor *)

Module Demo.

Definition seed : store :=
  mk_store
    [mk_pet 1 "Harry" 40000 true; mk_pet 2 "Goldie" 45000 false]
    [mk_product 1 "Chewable Dog Toy" 599 50 true;
     mk_product 2 "Premium Cat Food" 1299 30 true]
    [] [] [].

(** A processor that creates the intent [pi_<orderNumber>], reports every
    intent but ["pi_open"] as succeeded, and verifies the signature ["good"]
    only, over a raw body that is the intent id. *)
Definition stripe : gateway :=
  mk_gateway
    (fun _ _ number _ => Some (mk_intent ("pi_" ++ number) "secret" "requires_payment_method" None))
    (fun i => if (i =? "pi_open")%string
              then Some (mk_intent i "secret" "requires_payment_method" None)
              else Some (mk_intent i "secret" "succeeded" (Some "pm_card")))
    (fun body sig _ =>
       if (sig =? "good")%string
       then Some (mk_event "payment_intent.succeeded" (mk_intent body "secret" "succeeded" None))
       else None).

Definition address : string := "12 Main Street, Delhi".

Definition toy (q : Z) : cart_item := mk_cart_item "product" 1 (Some q) [].

Definition harry : cart_item := mk_cart_item "pet" 1 None [].

Definition cart (l : list cart_item) : create_request :=
  mk_create_request l address None None.

(** The seed after user 7 has checked out two toys and Harry (order 1,
    intent [pi_ORD-1]). *)
Definition ordered : store :=
  Eval vm_compute in
    run 100 (writes (create_intent stripe "ORD-1" [] 7 (cart [toy 2; harry]) seed)) seed.

(** ... and after user 8 has checked out one toy (order 2, intent [pi_ORD-2]). *)
Definition two_orders : store :=
  Eval vm_compute in
    run 110 (writes (create_intent stripe "ORD-2" [] 8 (cart [toy 1]) ordered)) ordered.

End Demo.

(** ** Notions the properties are stated with *)

(** The table a statement writes. *)
Inductive table := Pets | Products | Orders | OrderItems | Payments.

Definition target (q : stmt) : table :=
  match q with
  | InsertOrder _ _ _ _ _ _ | UpdateOrderStatus _ _ _ => Orders
  | InsertOrderItem _ _ _ _ _ => OrderItems
  | InsertPayment _ _ _ _ | UpdatePaymentRecord _ _ _ _ _ | UpdatePaymentStatus _ _ => Payments
  | UpdateStock _ _ => Products
  | UpdatePetUnavailable _ => Pets
  end.

(** The statements of a successful confirmation. *)
Definition confirm_writes (paymentIntent : payment_intent) (rq : confirm_request)
           (s : store) : list stmt :=
  UpdateOrderStatus "confirmed" "paid" (orderId rq)
  :: UpdatePaymentRecord "completed" (pi_payment_method paymentIntent) (pi_id paymentIntent)
                         (orderId rq) (trim (paymentIntentId rq))
  :: flat_map item_update (items_of_order s (orderId rq)).

(** [WHERE id = ? AND user_id = ?] of the confirmation's order look-up. *)
Definition owned_by (userId order : Z) (o : order_row) : bool :=
  (order_id o =? order) && (order_user_id o =? userId).

(** Units of product [p] on the rows [its]. *)
Definition ordered_quantity (its : list order_item_row) (p : Z) : Z :=
  fold_right
    (fun i acc => (if (item_type i =? "product")%string && (item_id i =? p)
                   then quantity i else 0) + acc)
    0 its.

(** Whether pet [p] is on the rows [its]. *)
Definition ordered_pet (its : list order_item_row) (p : Z) : bool :=
  existsb (fun i => (item_type i =? "pet")%string && (item_id i =? p)) its.

(** What the statements of a successful confirmation do to each table. *)
Record confirmed (now : Z) (paymentIntent : payment_intent) (rq : confirm_request)
       (s s' : store) : Prop := {
  confirmed_orders :
    orders s' = map (fun o => if order_id o =? orderId rq
                              then set_order_status "confirmed" "paid" now o else o)
                    (orders s);
  confirmed_payments :
    payments s' = map (fun p => if (payment_order_id p =? orderId rq)
                                   && (stripe_payment_intent_id p
                                       =? trim (paymentIntentId rq))%string
                                then set_payment_record "completed"
                                       (pi_payment_method paymentIntent)
                                       (pi_id paymentIntent) now p
                                else p)
                      (payments s);
  confirmed_products :
    shop_products s'
    = map (fun p => set_stock (stock_quantity p
                               - ordered_quantity (items_of_order s (orderId rq)) (product_id p)) p)
          (shop_products s);
  confirmed_pets :
    pets s' = map (fun p => if ordered_pet (items_of_order s (orderId rq)) (pet_id p)
                            then set_pet_available false p else p)
                  (pets s);
  confirmed_order_items : order_items s' = order_items s
}.

(** [quantity = 1] of the destructuring: the quantity asked for. *)
Definition requested_quantity (item : cart_item) : Z :=
  match ci_quantity item with Some q => q | None => 1 end.

(** The catalogue's answer for a cart item, in the specification's terms
    (get_purchasable): the current price of the pet or product. *)
Definition catalog_price (s : store) (item : cart_item) : option float :=
  if (ci_type item =? "pet")%string
  then option_map pet_price (find (fun p => pet_id p =? ci_id item) (pets s))
  else if (ci_type item =? "product")%string
  then option_map product_price (find (fun p => product_id p =? ci_id item) (shop_products s))
  else None.

(** A cart item resolves: the pet exists and is available; the product
    exists, is available and has the requested quantity in stock. *)
Definition purchasable (s : store) (item : cart_item) : bool :=
  if (ci_type item =? "pet")%string
  then match find (fun p => pet_id p =? ci_id item) (pets s) with
       | Some pet => pet_is_available pet
       | None => false
       end
  else if (ci_type item =? "product")%string
  then match find (fun p => product_id p =? ci_id item) (shop_products s) with
       | Some product =>
           product_is_available product && (requested_quantity item <=? stock_quantity product)
       | None => false
       end
  else false.

(** Catalogue price times requested quantity, as a JavaScript number. *)
Definition line_amount (s : store) (item : cart_item) : float :=
  match catalog_price s item with
  | Some p => (p * Number (requested_quantity item))%float
  | None => 0%float
  end.

(** The specification's total, computed as JavaScript computes it: the line
    amounts of the cart items [done], added one after the other, starting
    from zero. *)
Definition spec_total (s : store) (done : list cart_item) : float :=
  fold_left (fun acc item => (acc + line_amount s item)%float) done 0%float.

(** The specification's total in exact arithmetic: the sum of the rationals
    the catalogue prices stand for, each times the requested quantity, in
    lowest terms. *)
Definition exact_total (s : store) (cart : list cart_item) : option Q :=
  option_map Qred
    (fold_right
       (fun item acc =>
          match option_map value (catalog_price s item), acc with
          | Some (Some p), Some t => Some (p * inject_Z (requested_quantity item) + t)%Q
          | _, _ => None
          end)
       (Some 0%Q) cart).

(** A total the handler goes on with: a number, and not zero. *)
Definition chargeable (total : float) : bool :=
  negb (total =? 0)%float && negb (is_nan total).

(** What the handler reads of a cart item. *)
Definition order_line (item : cart_item) : string * Z * option Z :=
  (ci_type item, ci_id item, ci_quantity item).


Definition item_has_order (s : store) (i : order_item_row) : bool :=
  existsb (fun o => order_id o =? oi_order_id i) (orders s).

Definition items_have_orders (s : store) : bool := forallb (item_has_order s) (order_items s).





(** Units of product [p] asked for in a cart. *)
Definition cart_quantity (cart : list cart_item) (p : Z) : Z :=
  fold_right
    (fun item acc => (if (ci_type item =? "product")%string && (ci_id item =? p)
                      then requested_quantity item else 0) + acc)
    0 cart.

(** Units of product [p] in the handler's [orderItems]. *)
Definition items_quantity (l : list order_item) (p : Z) : Z :=
  fold_right
    (fun it acc => (if (it_type it =? "product")%string && (it_id it =? p)
                    then it_quantity it else 0) + acc)
    0 l.

(** The columns of an order_items row but its id, and the same of an element
    of [orderItems] inserted for order [order]. *)
Definition row_line (i : order_item_row) : Z * string * Z * Z * float :=
  (oi_order_id i, item_type i, item_id i, quantity i, oi_price i).

Definition item_line (order : Z) (it : order_item) : Z * string * Z * Z * float :=
  (order, it_type it, it_id it, it_quantity it, it_price it).

(** The columns of the order_items row a cart item stands for in order
    [order]: the item's type and id, the requested quantity and the
    catalogue price, when the item resolves; nothing when it does not. *)
Definition cart_line (s : store) (order : Z) (item : cart_item)
  : list (Z * string * Z * Z * float) :=
  if purchasable s item
  then match catalog_price s item with
       | Some p => [(order, ci_type item, ci_id item, requested_quantity item, p)]
       | None => []
       end
  else [].

Definition cart_lines (s : store) (order : Z) (cart : list cart_item)
  : list (Z * string * Z * Z * float) :=
  flat_map (cart_line s order) cart.

(** Whatever has been answered during the look-ups is an item-unavailable
    answer. *)
Definition answers_unavailable (a : lookups) : Prop :=
  forall r, answered a = Some r -> ItemUnavailable r = true.

(** The two states the payment routes put an order in. *)
Definition order_consistent (o : order_row) : Prop :=
  (order_status o = "pending" /\ payment_status o = "pending")
  \/ (order_status o = "confirmed" /\ payment_status o = "paid").

(** The one order update the routes issue. *)
Definition confirms_and_pays (q : stmt) : Prop :=
  match q with
  | UpdateOrderStatus st pay_st _ => st = "confirmed" /\ pay_st = "paid"
  | _ => True
  end.

(** A token without a space, as [jwt.sign] produces them. *)
Definition no_space (s : string) : bool :=
  forallb (fun c => negb (Ascii.eqb c " ")) (list_ascii_of_string s).

(** Users and tokens for the examples: user 7 is active, user 9 has been
    deactivated; the token of user [n] is ["tok<n>"]. *)
Module DemoAuth.

Definition desk : auth_env :=
  mk_auth_env
    [mk_user 7 "asha" "asha@example.com" "Asha Rao" "user" true;
     mk_user 9 "ravi" "ravi@example.com" "Ravi Jain" "user" false]
    (fun token => if (token =? "tok7")%string then Some 7
                  else if (token =? "tok9")%string then Some 9
                  else None).

End DemoAuth.

(** The addresses stored with the order: the trimmed shipping address, and
    [billingAddress || shippingAddress]. *)
Definition stored_shipping (rq : create_request) : string := trim (shippingAddress rq).

Definition stored_billing (rq : create_request) : string :=
  match option_map trim (billingAddress rq) with
  | Some b => if (b =? "")%string then stored_shipping rq else b
  | None => stored_shipping rq
  end.

(** The row a successful [INSERT INTO orders] of create-intent adds. *)
Definition new_order (now userId : Z) (orderNumber : string) (total : float)
           (rq : create_request) (s : store) : order_row :=
  mk_order (next_id (map order_id (orders s))) userId orderNumber total
           "pending" "pending" (stored_shipping rq) (stored_billing rq) (notes rq) now.


(** * Properties *)

(** ** Statements and the tables they leave alone *)

Section Frame.

Variable now : Z.

Lemma run_nil (s : store) : run now [] s = s.
Proof. reflexivity. Qed.

Lemma run_cons (q : stmt) (qs : list stmt) (s : store) :
  run now (q :: qs) s = run now qs (exec now q s).
Proof. reflexivity. Qed.

Lemma run_app (qs1 qs2 : list stmt) (s : store) :
  run now (qs1 ++ qs2) s = run now qs2 (run now qs1 s).
Proof. unfold run. apply fold_left_app. Qed.

Lemma exec_orders q s : target q <> Orders -> orders (exec now q s) = orders s.
Proof. destruct q; simpl; try reflexivity; congruence. Qed.

Lemma exec_pets q s : target q <> Pets -> pets (exec now q s) = pets s.
Proof.
  destruct q; simpl; try reflexivity; try congruence.
  destruct (order_insert_fails s number total); reflexivity.
Qed.

Lemma exec_products q s : target q <> Products -> shop_products (exec now q s) = shop_products s.
Proof.
  destruct q; simpl; try reflexivity; try congruence.
  destruct (order_insert_fails s number total); reflexivity.
Qed.

Lemma exec_order_items q s :
  target q <> OrderItems -> order_items (exec now q s) = order_items s.
Proof.
  destruct q; simpl; try reflexivity; try congruence.
  destruct (order_insert_fails s number total); reflexivity.
Qed.

Lemma exec_payments q s : target q <> Payments -> payments (exec now q s) = payments s.
Proof.
  destruct q; simpl; try reflexivity; try congruence.
  destruct (order_insert_fails s number total); reflexivity.
Qed.

(** A table is left alone by a list of statements none of which writes it. *)
Lemma run_frame {A} (proj : store -> A) (t : table) :
  (forall q s, target q <> t -> proj (exec now q s) = proj s) ->
  forall qs s, Forall (fun q => target q <> t) qs -> proj (run now qs s) = proj s.
Proof.
  intros Hexec qs. induction qs as [ |q qs IH]; intros s Hall.
  - reflexivity.
  - inversion Hall; subst. rewrite run_cons, IH by assumption. now apply Hexec.
Qed.

Lemma run_orders qs s :
  Forall (fun q => target q <> Orders) qs -> orders (run now qs s) = orders s.
Proof. apply (run_frame orders Orders exec_orders). Qed.

Lemma run_order_items qs s :
  Forall (fun q => target q <> OrderItems) qs -> order_items (run now qs s) = order_items s.
Proof. apply (run_frame order_items OrderItems exec_order_items). Qed.

Lemma run_pets qs s :
  Forall (fun q => target q <> Pets) qs -> pets (run now qs s) = pets s.
Proof. apply (run_frame pets Pets exec_pets). Qed.

Lemma run_products qs s :
  Forall (fun q => target q <> Products) qs -> shop_products (run now qs s) = shop_products s.
Proof. apply (run_frame shop_products Products exec_products). Qed.

Lemma run_payments qs s :
  Forall (fun q => target q <> Payments) qs -> payments (run now qs s) = payments s.
Proof. apply (run_frame payments Payments exec_payments). Qed.

Lemma Forall_firstn {A} (P : A -> Prop) (l : list A) (k : nat) :
  Forall P l -> Forall P (firstn k l).
Proof.
  intros H. revert k. induction H; intros [ |k]; simpl; constructor; auto.
Qed.

End Frame.

Lemma Forall_target_neq (t t' : table) (qs : list stmt) :
  t <> t' -> Forall (fun q => target q = t) qs -> Forall (fun q => target q <> t') qs.
Proof.
  intros Hne H. eapply Forall_impl; [ |exact H]. simpl. intros q Hq. congruence.
Qed.

(** ** The webhook *)

Lemma webhook_cases gw secret body sig :
  writes (webhook gw secret body sig) = []
  \/ exists st intent, writes (webhook gw secret body sig) = [UpdatePaymentStatus st intent].
Proof.
  unfold webhook. destruct (construct_event gw body sig secret) as [ev| ]; [ |now left].
  destruct (ev_type ev =? "payment_intent.succeeded")%string;
    [right; do 2 eexists; reflexivity | ].
  destruct (ev_type ev =? "payment_intent.payment_failed")%string;
    [right; do 2 eexists; reflexivity | now left].
Qed.

(** C5: a delivery whose signature does not verify is answered with the
    webhook error (InvalidSignature), issues no statement, and leaves every
    table as it was. *)
Theorem webhook_invalid_signature (gw : gateway) (secret : string) (body : request_body)
        (sig : string) (now : Z) (s : store) :
  construct_event gw body sig secret = None ->
  InvalidSignature (sent (webhook gw secret body sig)) = true
  /\ writes (webhook gw secret body sig) = []
  /\ (forall k, during now (writes (webhook gw secret body sig)) k s = s)
  /\ after now (webhook gw secret body sig) s = s.
Proof.
  intros H. unfold after, during, webhook. rewrite H. simpl.
  repeat split. intros k. destruct k; reflexivity.
Qed.

Lemma webhook_invalid_signature_witness :
  InvalidSignature (sent (webhook Demo.stripe "whsec" (RawBody "pi_ORD-1") "forged")) = true
  /\ after 5 (webhook Demo.stripe "whsec" (RawBody "pi_ORD-1") "forged") Demo.seed = Demo.seed.
Proof.
  destruct (webhook_invalid_signature Demo.stripe "whsec" (RawBody "pi_ORD-1") "forged"
              5 Demo.seed) as (H1 & _ & _ & H4).
  - reflexivity.
  - split; assumption.
Defined.

(** C7, as the code has it: a payment-succeeded delivery for the intent of
    order 1 whose signature verifies over the raw text of the request.  The
    server hands the route a body that [express.json] has already parsed,
    [constructEvent] throws on it, and the delivery is answered with the
    webhook error: the payment row stays pending, after one delivery as
    after two. *)
Theorem server_webhook_rejects_verified_delivery :
  let w := server_webhook Demo.stripe "whsec" "pi_ORD-1" "good" in
  constructEvent Demo.stripe "pi_ORD-1" "good" "whsec"
  = Some (mk_event "payment_intent.succeeded" (mk_intent "pi_ORD-1" "secret" "succeeded" None))
  /\ map status (payments Demo.ordered) = ["pending"]
  /\ sent w = WebhookError
  /\ writes w = []
  /\ map status (payments (after 200 w Demo.ordered)) = ["pending"]
  /\ map status (payments (after 300 w (after 200 w Demo.ordered))) = ["pending"].
Proof. repeat split. Qed.

(** ** The webhook against the confirmation *)

(** C6, as the code has it: for the pending order 1 (two toys and Harry) a
    payment-succeeded delivery leaves the order pending, the stock at fifty
    and Harry available, where the confirmation confirms, decrements and
    marks. *)
Lemma webhook_leaves_order_pending :
  let s := Demo.ordered in
  let w := server_webhook Demo.stripe "whsec" "pi_ORD-1" "good" in
  let c := confirm Demo.stripe 7 (mk_confirm_request "pi_ORD-1" 1) s in
  sent c = PaymentConfirmed
  /\ map order_status (orders (after 200 w s)) = ["pending"]
  /\ map order_status (orders (after 200 c s)) = ["confirmed"]
  /\ map stock_quantity (shop_products (after 200 w s)) = [50; 30]
  /\ map stock_quantity (shop_products (after 200 c s)) = [48; 30]
  /\ map pet_is_available (pets (after 200 w s)) = [true; false]
  /\ map pet_is_available (pets (after 200 c s)) = [false; false].
Proof. vm_compute. repeat split; reflexivity. Qed.

Lemma webhook_tables gw secret body sig now s k :
  let sk := during now (writes (webhook gw secret body sig)) k s in
  orders sk = orders s /\ order_items sk = order_items s
  /\ shop_products sk = shop_products s /\ pets sk = pets s.
Proof.
  intros sk. subst sk. unfold during.
  destruct (webhook_cases gw secret body sig) as [-> | (st & intent & ->)].
  - rewrite firstn_nil. repeat split.
  - destruct k as [ |k]; [repeat split| ]. cbn [firstn]. rewrite firstn_nil. repeat split.
Qed.

(** C6, amended: whatever is delivered to the webhook route, raw or parsed,
    verified or not, the handler writes neither orders nor order items nor
    stock nor pets, in any state it goes through: an order whose payment
    settles without a confirmation stays as it is, and so does the stock. *)
Theorem webhook_never_confirms (gw : gateway) (secret : string) (body : request_body)
        (sig : string) (now : Z) (s : store) (k : nat) :
  let sk := during now (writes (webhook gw secret body sig)) k s in
  orders sk = orders s /\ order_items sk = order_items s
  /\ shop_products sk = shop_products s /\ pets sk = pets s.
Proof.
  intros sk. subst sk. unfold during.
  destruct (webhook_cases gw secret body sig) as [-> | (st & intent & ->)].
  - rewrite firstn_nil. repeat split.
  - destruct k as [ |k]; [repeat split| ]. cbn [firstn]. rewrite firstn_nil. repeat split.
Qed.

(** ** The confirmation *)

Lemma confirm_ok gw userId rq s paymentIntent order :
  valid_confirm rq = true ->
  paymentIntents_retrieve gw (trim (paymentIntentId rq)) = Some paymentIntent ->
  pi_status paymentIntent = "succeeded" ->
  find (owned_by userId (orderId rq)) (orders s) = Some order ->
  order_status order = "pending" ->
  confirm gw userId rq s = mk_outcome PaymentConfirmed (confirm_writes paymentIntent rq s) false.
Proof.
  intros Hv Hr Hs Hf Hp. unfold confirm, owned_by in *.
  rewrite Hv, Hr, Hs, Hf, Hp. reflexivity.
Qed.

Lemma confirm_inv gw userId rq s :
  sent (confirm gw userId rq s) = PaymentConfirmed ->
  exists paymentIntent order,
    valid_confirm rq = true
    /\ paymentIntents_retrieve gw (trim (paymentIntentId rq)) = Some paymentIntent
    /\ pi_status paymentIntent = "succeeded"
    /\ find (owned_by userId (orderId rq)) (orders s) = Some order
    /\ order_status order = "pending"
    /\ writes (confirm gw userId rq s) = confirm_writes paymentIntent rq s.
Proof.
  unfold confirm, owned_by.
  destruct (valid_confirm rq) eqn:Hv; simpl; [ |discriminate].
  destruct (paymentIntents_retrieve gw (trim (paymentIntentId rq))) as [pi| ] eqn:Hr;
    simpl; [ |discriminate].
  destruct (pi_status pi =? "succeeded")%string eqn:Hs; simpl; [ |discriminate].
  destruct (find _ (orders s)) as [order| ] eqn:Hf; simpl; [ |discriminate].
  destruct (order_status order =? "pending")%string eqn:Hp; simpl; [ |discriminate].
  intros _. exists pi, order. apply String.eqb_eq in Hs, Hp. repeat split; auto.
Qed.

Lemma item_update_targets (its : list order_item_row) :
  Forall (fun q => target q = Products \/ target q = Pets) (flat_map item_update its).
Proof.
  induction its as [ |i its IH]; simpl.
  - constructor.
  - apply Forall_app. split; [ |exact IH]. unfold item_update.
    destruct (item_type i =? "product")%string.
    + constructor; [now left | constructor].
    + destruct (item_type i =? "pet")%string; constructor; [now right | constructor].
Qed.

Lemma item_update_avoids (t : table) (its : list order_item_row) :
  t <> Products -> t <> Pets ->
  Forall (fun q => target q <> t) (flat_map item_update its).
Proof.
  intros H1 H2. eapply Forall_impl; [ |apply item_update_targets].
  simpl. intros q [Hq|Hq]; congruence.
Qed.

Lemma set_stock_same p : set_stock (stock_quantity p) p = p.
Proof. destruct p; reflexivity. Qed.

Lemma pet_is_not_product t : (t =? "pet")%string = true -> (t =? "product")%string = false.
Proof. intros H. apply String.eqb_eq in H. subst. reflexivity. Qed.

Lemma item_updates_products now its : forall s,
  shop_products (run now (flat_map item_update its) s)
  = map (fun p => set_stock (stock_quantity p - ordered_quantity its (product_id p)) p)
        (shop_products s).
Proof.
  induction its as [ |i its IH]; intros s.
  - simpl. rewrite <- (map_id (shop_products s)) at 1. apply map_ext.
    intros p. rewrite Z.sub_0_r. symmetry. apply set_stock_same.
  - simpl flat_map. rewrite run_app, IH. unfold item_update.
    destruct (item_type i =? "product")%string eqn:Ety.
    + simpl. rewrite map_map. apply map_ext. intros p.
      rewrite Ety. simpl.
      destruct (product_id p =? item_id i) eqn:Eid.
      * apply Z.eqb_eq in Eid. rewrite <- Eid. simpl. rewrite Z.eqb_refl.
        unfold set_stock. simpl. f_equal. lia.
      * rewrite Z.eqb_sym, Eid. f_equal; lia.
    + assert (Hs : shop_products
                (run now (if (item_type i =? "pet")%string
                          then [UpdatePetUnavailable (item_id i)] else []) s)
              = shop_products s)
        by (destruct (item_type i =? "pet")%string; reflexivity).
      rewrite Hs. apply map_ext. intros p. simpl. rewrite Ety. simpl. reflexivity.
Qed.

Lemma item_updates_pets now its : forall s,
  pets (run now (flat_map item_update its) s)
  = map (fun p => if ordered_pet its (pet_id p) then set_pet_available false p else p)
        (pets s).
Proof.
  induction its as [ |i its IH]; intros s.
  - simpl. symmetry. apply map_id.
  - simpl flat_map. rewrite run_app, IH. unfold item_update.
    destruct (item_type i =? "product")%string eqn:Ety.
    + simpl. apply map_ext. intros p.
      destruct (item_type i =? "pet")%string eqn:Epet; [ |reflexivity].
      apply pet_is_not_product in Epet. congruence.
    + destruct (item_type i =? "pet")%string eqn:Epet; simpl.
      * rewrite map_map. apply map_ext. intros p.
        simpl. rewrite Epet, (Z.eqb_sym (item_id i)).
        destruct (pet_id p =? item_id i); simpl.
        -- destruct (ordered_pet its (pet_id p)); reflexivity.
        -- reflexivity.
      * apply map_ext. intros p. simpl. rewrite Epet. reflexivity.
Qed.

Lemma confirm_writes_effect now paymentIntent rq s :
  confirmed now paymentIntent rq s (run now (confirm_writes paymentIntent rq s) s).
Proof.
  unfold confirm_writes. rewrite 2 run_cons.
  set (its := items_of_order s (orderId rq)).
  split.
  - rewrite run_orders by (apply item_update_avoids; discriminate). reflexivity.
  - rewrite run_payments by (apply item_update_avoids; discriminate). reflexivity.
  - rewrite item_updates_products. reflexivity.
  - rewrite item_updates_pets. reflexivity.
  - rewrite run_order_items by (apply item_update_avoids; discriminate). reflexivity.
Qed.

Lemma find_map_update {A} (f : A -> bool) (g : A -> A) (l : list A) :
  (forall a, f (g a) = f a) -> find f (map g l) = option_map g (find f l).
Proof.
  intros Hfg. induction l as [ |a l IH]; simpl.
  - reflexivity.
  - rewrite Hfg. destruct (f a); [reflexivity | exact IH].
Qed.

(** After the order update, the order the confirmation looks up is the
    confirmed one. *)
Lemma find_confirmed_order now userId order (l : list order_row) o :
  find (owned_by userId order) l = Some o ->
  find (owned_by userId order)
       (map (fun o => if order_id o =? order
                      then set_order_status "confirmed" "paid" now o else o) l)
  = Some (set_order_status "confirmed" "paid" now o).
Proof.
  intros Hf. rewrite find_map_update.
  - rewrite Hf. simpl. apply find_some in Hf. destruct Hf as [_ Ho].
    unfold owned_by in Ho. apply andb_true_iff in Ho. destruct Ho as [Ho _].
    rewrite Ho. reflexivity.
  - intros a. destruct (order_id a =? order); reflexivity.
Qed.

Lemma confirmed_order_rows now paymentIntent rq s o :
  In o (orders (run now (confirm_writes paymentIntent rq s) s)) ->
  order_id o = orderId rq ->
  order_status o = "confirmed" /\ payment_status o = "paid".
Proof.
  rewrite (confirmed_orders _ _ _ _ _ (confirm_writes_effect now paymentIntent rq s)).
  intros Hin Hid. apply in_map_iff in Hin. destruct Hin as (o0 & <- & _).
  destruct (order_id o0 =? orderId rq) eqn:E.
  - split; reflexivity.
  - apply Z.eqb_neq in E. contradiction.
Qed.

(** C10: a pending order of the caller is confirmed with any intent the
    processor reports as succeeded: the answer is "Payment confirmed" and the
    order, looked up again, has status confirmed and payment status paid,
    like every row with its id.  Nothing ties the intent to the order, and
    when no payment row carries both the order id and the intent id the
    payments table is left as it was. *)
Theorem confirm_accepts_any_succeeded_intent (gw : gateway) (userId now : Z)
        (rq : confirm_request) (s : store) (paymentIntent : payment_intent)
        (order : order_row) :
  valid_confirm rq = true ->
  find (owned_by userId (orderId rq)) (orders s) = Some order ->
  order_status order = "pending" ->
  paymentIntents_retrieve gw (trim (paymentIntentId rq)) = Some paymentIntent ->
  pi_status paymentIntent = "succeeded" ->
  let o := confirm gw userId rq s in
  sent o = PaymentConfirmed
  /\ (exists row,
         find (owned_by userId (orderId rq)) (orders (after now o s)) = Some row
         /\ order_status row = "confirmed" /\ payment_status row = "paid"
         /\ order_number row = order_number order
         /\ total_amount row = total_amount order)
  /\ (forall row, In row (orders (after now o s)) -> order_id row = orderId rq ->
                  order_status row = "confirmed" /\ payment_status row = "paid")
  /\ ((forall p, In p (payments s) ->
                 ~ (payment_order_id p = orderId rq
                    /\ stripe_payment_intent_id p = trim (paymentIntentId rq))) ->
      payments (after now o s) = payments s).
Proof.
  intros Hv Hf Hp Hr Hs o. subst o.
  rewrite (confirm_ok _ _ _ _ _ _ Hv Hr Hs Hf Hp). unfold after. simpl sent. simpl writes.
  destruct (confirm_writes_effect now paymentIntent rq s) as [Ho Hpay _ _ _].
  split; [reflexivity | ]. split; [ | split].
  - exists (set_order_status "confirmed" "paid" now order). split.
    + rewrite Ho. now apply find_confirmed_order.
    + repeat split.
  - intros row. apply confirmed_order_rows.
  - intros Hnone. rewrite Hpay. rewrite <- (map_id (payments s)) at 2.
    apply map_ext_in. intros p Hin.
    destruct (payment_order_id p =? orderId rq) eqn:E1; [ | reflexivity].
    destruct (stripe_payment_intent_id p =? trim (paymentIntentId rq))%string eqn:E2;
      [ | reflexivity].
    exfalso. apply (Hnone p Hin). split.
    + now apply Z.eqb_eq.
    + now apply String.eqb_eq.
Qed.

Lemma confirm_accepts_any_succeeded_intent_witness :
  let rq := mk_confirm_request "pi_ORD-2" 1 in
  let s' := after 200 (confirm Demo.stripe 7 rq Demo.two_orders) Demo.two_orders in
  sent (confirm Demo.stripe 7 rq Demo.two_orders) = PaymentConfirmed
  /\ map order_status (orders Demo.two_orders) = ["pending"; "pending"]
  /\ (forall row, In row (orders s') -> order_id row = 1 ->
                  order_status row = "confirmed" /\ payment_status row = "paid")
  /\ payments s' = payments Demo.two_orders.
Proof.
  intros rq s'.
  destruct (confirm_accepts_any_succeeded_intent Demo.stripe 7 200 rq Demo.two_orders
              (mk_intent "pi_ORD-2" "secret" "succeeded" (Some "pm_card"))
              (mk_order 1 7 "ORD-1" 41198 "pending" "pending" Demo.address Demo.address None 100))
    as (H1 & _ & H3 & H4); try reflexivity.
  split; [exact H1 | ]. split; [reflexivity | ]. split; [exact H3 | ]. apply H4.
  intros p Hin [Ho Hi]. simpl in Hin.
  destruct Hin as [<-|[<-|[]]]; simpl in Ho, Hi; discriminate.
Defined.






(** ** Stock *)

(** C4, as the code has it: two checkouts of thirty toys each pass the stock
    check against the fifty in stock, both are confirmed, and the stock of
    the toy ends at -10. *)
Lemma stock_goes_negative :
  let s0 := Demo.seed in
  let o1 := create_intent Demo.stripe "ORD-1" [] 7 (Demo.cart [Demo.toy 30]) s0 in
  let s1 := after 100 o1 s0 in
  let o2 := create_intent Demo.stripe "ORD-2" [] 8 (Demo.cart [Demo.toy 30]) s1 in
  let s2 := after 110 o2 s1 in
  let c1 := confirm Demo.stripe 7 (mk_confirm_request "pi_ORD-1" 1) s2 in
  let s3 := after 200 c1 s2 in
  let c2 := confirm Demo.stripe 8 (mk_confirm_request "pi_ORD-2" 2) s3 in
  let s4 := after 210 c2 s3 in
  map stock_quantity (shop_products s0) = [50; 30]
  /\ sent o1 = IntentCreated "secret" 1 "ORD-1" 17970
  /\ sent o2 = IntentCreated "secret" 2 "ORD-2" 17970
  /\ sent c1 = PaymentConfirmed
  /\ sent c2 = PaymentConfirmed
  /\ map stock_quantity (shop_products s4) = [-10; 30].
Proof. vm_compute. repeat split; reflexivity. Qed.

(** C4, amended: the decrement of a confirmation is unconditional.  Every
    product row ends with its stock lowered by the quantity the order holds
    of it, whatever the stock was; no stock is negative afterwards whenever
    every stock covered the ordered quantity before. *)
Theorem confirm_decrements_stock (gw : gateway) (userId now : Z)
        (rq : confirm_request) (s : store) :
  sent (confirm gw userId rq s) = PaymentConfirmed ->
  let its := items_of_order s (orderId rq) in
  let s' := after now (confirm gw userId rq s) s in
  shop_products s'
  = map (fun p => set_stock (stock_quantity p - ordered_quantity its (product_id p)) p)
        (shop_products s)
  /\ (Forall (fun p => ordered_quantity its (product_id p) <= stock_quantity p)
             (shop_products s) ->
      Forall (fun p => 0 <= stock_quantity p) (shop_products s')).
Proof.
  intros Hok its s'. subst its s'.
  destruct (confirm_inv _ _ _ _ Hok) as (pi & order & _ & _ & _ & _ & _ & Hw).
  unfold after. rewrite Hw.
  destruct (confirm_writes_effect now pi rq s) as [_ _ Hprod _ _].
  split; [exact Hprod | ]. rewrite Hprod, Forall_map.
  intros H. eapply Forall_impl; [ | exact H]. simpl. intros p Hp. lia.
Qed.

Lemma confirm_decrements_stock_witness :
  let rq := mk_confirm_request "pi_ORD-1" 1 in
  sent (confirm Demo.stripe 7 rq Demo.ordered) = PaymentConfirmed
  /\ map stock_quantity
         (shop_products (after 200 (confirm Demo.stripe 7 rq Demo.ordered) Demo.ordered))
     = [48; 30]
  /\ Forall (fun p => 0 <= stock_quantity p)
            (shop_products (after 200 (confirm Demo.stripe 7 rq Demo.ordered) Demo.ordered)).
Proof.
  intros rq.
  assert (Hok : sent (confirm Demo.stripe 7 rq Demo.ordered) = PaymentConfirmed)
    by reflexivity.
  destruct (confirm_decrements_stock Demo.stripe 7 200 rq Demo.ordered Hok) as [H1 H2].
  split; [exact Hok | ]. split.
  - etransitivity; [apply (f_equal (map stock_quantity)); exact H1 | reflexivity].
  - apply H2. repeat constructor; vm_compute; discriminate.
Defined.

(** ** The steps of a confirmation *)

(** C8, as the code has it: while order 1 is being confirmed the database
    goes through a state, after the first statement, in which the order is
    confirmed and paid but the stock is still fifty, Harry still available
    and the payment row still pending. *)
Lemma confirm_not_atomic :
  let s := Demo.ordered in
  let c := confirm Demo.stripe 7 (mk_confirm_request "pi_ORD-1" 1) s in
  let mid := during 200 (writes c) 1 s in
  sent c = PaymentConfirmed
  /\ map order_status (orders mid) = ["confirmed"]
  /\ map payment_status (orders mid) = ["paid"]
  /\ map status (payments mid) = ["pending"]
  /\ map stock_quantity (shop_products mid) = [50; 30]
  /\ map pet_is_available (pets mid) = [true; false]
  /\ map status (payments (after 200 c s)) = ["completed"]
  /\ map stock_quantity (shop_products (after 200 c s)) = [48; 30]
  /\ map pet_is_available (pets (after 200 c s)) = [false; false].
Proof. vm_compute. repeat split; reflexivity. Qed.

Lemma confirm_writes_tail_avoids_orders paymentIntent rq s :
  Forall (fun q => target q <> Orders) (tl (confirm_writes paymentIntent rq s)).
Proof.
  unfold confirm_writes. cbn [tl]. constructor.
  - discriminate.
  - apply item_update_avoids; discriminate.
Qed.

Lemma confirmed_payment_rows now paymentIntent rq s p :
  In p (payments (run now (confirm_writes paymentIntent rq s) s)) ->
  payment_order_id p = orderId rq ->
  stripe_payment_intent_id p = trim (paymentIntentId rq) ->
  status p = "completed"
  /\ payment_method p = pi_payment_method paymentIntent
  /\ transaction_id p = Some (pi_id paymentIntent).
Proof.
  rewrite (confirmed_payments _ _ _ _ _ (confirm_writes_effect now paymentIntent rq s)).
  intros Hin Ho Hi. apply in_map_iff in Hin. destruct Hin as (p0 & <- & _).
  destruct ((payment_order_id p0 =? orderId rq)
            && (stripe_payment_intent_id p0 =? trim (paymentIntentId rq))%string) eqn:E.
  - repeat split.
  - apply andb_false_iff in E. destruct E as [E|E].
    + apply Z.eqb_neq in E. contradiction.
    + apply String.eqb_neq in E. contradiction.
Qed.

(** C8, amended: the mutations of a successful confirmation are separate
    statements, issued in the order (a) the order update, (b) the update of
    the payment row, (c) one stock decrement per product row and one
    availability update per pet row of the order, with no transaction around
    them.  The order update runs first: every state the database goes
    through is either the state before the confirmation or has the orders
    table of the end, so no state has stock decremented or a pet marked
    while the order still is pending.  Once the last statement has run all
    three are in place: the order rows have status confirmed and payment
    status paid, the payment rows of the order and the intent have status
    completed with method and transaction id, every stock is lowered by the
    ordered quantity and every pet on the order has is_available false. *)
Theorem confirm_steps_in_order (gw : gateway) (userId now : Z)
        (rq : confirm_request) (s : store) :
  sent (confirm gw userId rq s) = PaymentConfirmed ->
  let c := confirm gw userId rq s in
  let its := items_of_order s (orderId rq) in
  exists paymentIntent,
    paymentIntents_retrieve gw (trim (paymentIntentId rq)) = Some paymentIntent
    /\ writes c
       = UpdateOrderStatus "confirmed" "paid" (orderId rq)
         :: UpdatePaymentRecord "completed" (pi_payment_method paymentIntent)
                                (pi_id paymentIntent) (orderId rq) (trim (paymentIntentId rq))
         :: flat_map (fun i => if (item_type i =? "product")%string
                               then [UpdateStock (quantity i) (item_id i)]
                               else if (item_type i =? "pet")%string
                                    then [UpdatePetUnavailable (item_id i)]
                                    else [])
                     its
    /\ (forall k, during now (writes c) k s = s
                  \/ orders (during now (writes c) k s) = orders (after now c s))
    /\ during now (writes c) (List.length (writes c)) s = after now c s
    /\ (forall o, In o (orders (after now c s)) -> order_id o = orderId rq ->
                  order_status o = "confirmed" /\ payment_status o = "paid")
    /\ (forall p, In p (payments (after now c s)) ->
                  payment_order_id p = orderId rq ->
                  stripe_payment_intent_id p = trim (paymentIntentId rq) ->
                  status p = "completed"
                  /\ payment_method p = pi_payment_method paymentIntent
                  /\ transaction_id p = Some (pi_id paymentIntent))
    /\ map stock_quantity (shop_products (after now c s))
       = map (fun p => stock_quantity p - ordered_quantity its (product_id p))
             (shop_products s)
    /\ map pet_is_available (pets (after now c s))
       = map (fun p => if ordered_pet its (pet_id p) then false else pet_is_available p)
             (pets s).
Proof.
  intros Hok c its. subst c its.
  destruct (confirm_inv _ _ _ _ Hok) as (pi & order & _ & Hr & _ & _ & _ & Hw).
  exists pi. unfold after, during. rewrite Hw.
  pose proof (confirm_writes_effect now pi rq s) as Heff.
  split; [exact Hr | ]. split; [reflexivity | ].
  split; [ | split; [ | split; [ | split; [ | split]]]].
  - intros [|k]; [left; reflexivity | right].
    rewrite (confirmed_orders _ _ _ _ _ Heff).
    pose proof (confirm_writes_tail_avoids_orders pi rq s) as Htl.
    unfold confirm_writes in *. cbn [tl] in Htl. cbn [firstn]. rewrite run_cons.
    rewrite run_orders by (apply Forall_firstn; exact Htl). reflexivity.
  - rewrite firstn_all. reflexivity.
  - intros o. apply confirmed_order_rows.
  - intros p. apply confirmed_payment_rows.
  - rewrite (confirmed_products _ _ _ _ _ Heff), map_map. reflexivity.
  - rewrite (confirmed_pets _ _ _ _ _ Heff), map_map. apply map_ext. intros p.
    destruct (ordered_pet _ (pet_id p)); reflexivity.
Qed.

Lemma confirm_steps_in_order_witness :
  let c := confirm Demo.stripe 7 (mk_confirm_request "pi_ORD-1" 1) Demo.ordered in
  sent c = PaymentConfirmed
  /\ writes c = [UpdateOrderStatus "confirmed" "paid" 1;
                 UpdatePaymentRecord "completed" (Some "pm_card") "pi_ORD-1" 1 "pi_ORD-1";
                 UpdateStock 2 1; UpdatePetUnavailable 1]
  /\ map order_status (orders (after 200 c Demo.ordered)) = ["confirmed"]
  /\ map status (payments (after 200 c Demo.ordered)) = ["completed"]
  /\ map stock_quantity (shop_products (after 200 c Demo.ordered)) = [48; 30]
  /\ map pet_is_available (pets (after 200 c Demo.ordered)) = [false; false].
Proof.
  intros c.
  assert (Hok : sent c = PaymentConfirmed) by reflexivity.
  destruct (confirm_steps_in_order Demo.stripe 7 200
              (mk_confirm_request "pi_ORD-1" 1) Demo.ordered Hok)
    as (pi & Hr & Hw & _ & _ & _ & _ & Hst & Hpets).
  split; [exact Hok | ]. split; [reflexivity | ]. split; [reflexivity | ].
  split; [reflexivity | ]. split; [exact Hst | exact Hpets].
Defined.

(** ** The order in which the look-ups complete *)

Lemma extract_perm {A} n : forall (l : list A) x others,
  extract n l = Some (x, others) -> Permutation l (x :: others).
Proof.
  induction n as [ |n IH]; intros [ |y l] x others H; simpl in H; try discriminate.
  - injection H as <- <-. apply Permutation_refl.
  - destruct (extract n l) as [[z rest]| ] eqn:E.
    + injection H as <- <-. apply perm_trans with (y :: z :: rest).
      * constructor. now apply IH.
      * apply perm_swap.
    + injection H as <- <-. apply Permutation_refl.
Qed.

Lemma extract_none {A} n (l : list A) : extract n l = None -> l = [].
Proof.
  destruct l as [ |y l]; [reflexivity | ]. destruct n as [ |n]; simpl; [discriminate | ].
  destruct (extract n l) as [[z rest]| ]; discriminate.
Qed.

(** Every look-up completes, once. *)
Lemma completion_perm {A} schedule : forall pending : list A,
  Permutation (completion schedule pending) pending.
Proof.
  induction schedule as [ |n later IH]; intros pending; simpl.
  - apply Permutation_refl.
  - destruct (extract n pending) as [[x others]| ] eqn:E.
    + apply perm_trans with (x :: others).
      * constructor. apply IH.
      * symmetry. now apply (extract_perm n).
    + rewrite (extract_none n pending E). constructor.
Qed.

Lemma completion_nil {A} schedule : completion schedule (@nil A) = [].
Proof. destruct schedule as [ |[ |n] later]; reflexivity. Qed.

Lemma completion_one {A} schedule (x : A) : completion schedule [x] = [x].
Proof.
  destruct schedule as [ |[ |[ |n]] later]; [reflexivity | | | ].
  - change (completion (0%nat :: later) [x]) with (x :: completion later []).
    now rewrite completion_nil.
  - change (completion (1%nat :: later) [x]) with (x :: completion later []).
    now rewrite completion_nil.
  - change (completion (S (S n) :: later) [x]) with (x :: completion later []).
    now rewrite completion_nil.
Qed.

(** Two look-ups complete in the order they were issued or in the other. *)
Lemma completion_two {A} schedule (x y : A) :
  completion schedule [x; y] = [x; y] \/ completion schedule [x; y] = [y; x].
Proof.
  destruct schedule as [ |[ |[ |n]] later].
  - now left.
  - left. change (completion (0%nat :: later) [x; y]) with (x :: completion later [y]).
    now rewrite completion_one.
  - right. change (completion (1%nat :: later) [x; y]) with (y :: completion later [x]).
    now rewrite completion_one.
  - right. destruct n as [ |n].
    + change (completion (2%nat :: later) [x; y]) with (y :: completion later [x]).
      now rewrite completion_one.
    + change (completion (S (S (S n)) :: later) [x; y]) with (y :: completion later [x]).
      now rewrite completion_one.
Qed.

Lemma extract_app {A} (l1 : list A) x l2 :
  extract (List.length l1) (l1 ++ x :: l2) = Some (x, (l1 ++ l2)%list).
Proof.
  induction l1 as [ |y l1 IH]; [reflexivity | ].
  cbn [List.length app extract]. now rewrite IH.
Qed.

(** Every order of completion is the one of some schedule. *)
Lemma completion_any {A} (done : list A) : forall pending,
  Permutation pending done -> exists schedule, completion schedule pending = done.
Proof.
  induction done as [ |x done IH]; intros pending Hperm.
  - apply Permutation_sym, Permutation_nil in Hperm. subst. now exists [].
  - assert (Hin : In x pending)
      by (apply (Permutation_in x (Permutation_sym Hperm)); now left).
    apply in_split in Hin. destruct Hin as (l1 & l2 & ->).
    apply Permutation_sym, Permutation_cons_app_inv, Permutation_sym in Hperm.
    destruct (IH _ Hperm) as (later & Hlater).
    exists (List.length l1 :: later). cbn [completion].
    now rewrite extract_app, Hlater.
Qed.

Lemma extract_map {A B} (f : A -> B) n : forall l,
  extract n (map f l)
  = match extract n l with
    | Some (x, others) => Some (f x, map f others)
    | None => None
    end.
Proof.
  induction n as [ |n IH]; intros [ |y l]; simpl; try reflexivity.
  rewrite IH. destruct (extract n l) as [[z rest]| ]; reflexivity.
Qed.

Lemma completion_map {A B} (f : A -> B) schedule : forall pending,
  completion schedule (map f pending) = map f (completion schedule pending).
Proof.
  induction schedule as [ |n later IH]; intros pending; simpl; [reflexivity | ].
  rewrite extract_map. destruct (extract n pending) as [[x others]| ]; [ | reflexivity].
  simpl. now rewrite IH.
Qed.

Lemma forallb_perm {A} (f : A -> bool) l l' :
  Permutation l l' -> forallb f l = forallb f l'.
Proof.
  induction 1; simpl.
  - reflexivity.
  - now f_equal.
  - destruct (f x), (f y); reflexivity.
  - congruence.
Qed.

Lemma cart_quantity_perm l l' p :
  Permutation l l' -> cart_quantity l p = cart_quantity l' p.
Proof. induction 1; simpl; lia. Qed.

Lemma valid_completion schedule cart :
  forallb valid_item (completion schedule cart) = forallb valid_item cart.
Proof. apply forallb_perm, completion_perm. Qed.

Lemma purchasable_completion s schedule cart :
  forallb (purchasable s) (completion schedule cart) = forallb (purchasable s) cart.
Proof. apply forallb_perm, completion_perm. Qed.

(** ** Order creation: the look-ups *)

Lemma lookup_item_exited s a item : exited a = true -> lookup_item s a item = a.
Proof. intros H. unfold lookup_item. now rewrite H. Qed.

Lemma fold_lookup_exited s done : forall a,
  exited a = true -> fold_left (lookup_item s) done a = a.
Proof.
  induction done as [ |item done IH]; intros a H; simpl; [reflexivity | ].
  rewrite (lookup_item_exited s a item H). now apply IH.
Qed.

(** A look-up that resolves adds its line amount and its item, and sends
    nothing. *)
Lemma lookup_item_purchasable s a item :
  exited a = false ->
  purchasable s item = true ->
  totalAmount (lookup_item s a item) = (totalAmount a + line_amount s item)%float
  /\ answered (lookup_item s a item) = answered a
  /\ exited (lookup_item s a item) = false.
Proof.
  unfold purchasable, lookup_item, line_amount, catalog_price, requested_quantity.
  intros He. rewrite He.
  destruct (ci_type item =? "pet")%string.
  - destruct (find _ (pets s)) as [pet| ]; [ | discriminate].
    intros Hav. rewrite Hav. simpl. auto.
  - destruct (ci_type item =? "product")%string; [ | discriminate].
    destruct (find _ (shop_products s)) as [product| ]; [ | discriminate].
    intros Hav. apply andb_true_iff in Hav. destruct Hav as [Hav Hst].
    rewrite Hav. apply Z.leb_le in Hst.
    assert (Hlt : (stock_quantity product
                   <? match ci_quantity item with Some q => q | None => 1 end) = false)
      by (apply Z.ltb_ge; exact Hst).
    rewrite Hlt. simpl. auto.
Qed.

Lemma fold_lookup_purchasable s done : forall a,
  exited a = false ->
  forallb (purchasable s) done = true ->
  totalAmount (fold_left (lookup_item s) done a)
  = fold_left (fun acc item => (acc + line_amount s item)%float) done (totalAmount a)
  /\ answered (fold_left (lookup_item s) done a) = answered a
  /\ exited (fold_left (lookup_item s) done a) = false.
Proof.
  induction done as [ |item done IH]; intros a He Hall; simpl.
  - auto.
  - simpl in Hall. apply andb_true_iff in Hall. destruct Hall as [Hitem Hall].
    destruct (lookup_item_purchasable s a item He Hitem) as (Ht1 & Ha1 & He1).
    destruct (IH (lookup_item s a item) He1 Hall) as (Ht & Ha & He2).
    rewrite Ht, Ha, Ht1, Ha1. auto.
Qed.

(** With every item resolving, the look-ups leave the specification's total
    in [totalAmount], no answer sent and the process running. *)
Lemma lookup_items_purchasable s done :
  forallb (purchasable s) done = true ->
  totalAmount (lookup_items s done) = spec_total s done
  /\ answered (lookup_items s done) = None
  /\ exited (lookup_items s done) = false.
Proof.
  intros Hall. unfold lookup_items, spec_total.
  apply (fold_lookup_purchasable s done (mk_lookups 0 [] None false) eq_refl Hall).
Qed.

Lemma lookup_item_order_line s a item item' :
  order_line item = order_line item' -> lookup_item s a item = lookup_item s a item'.
Proof.
  destruct item, item'. unfold order_line. simpl. intros H.
  injection H as -> -> ->. reflexivity.
Qed.

Lemma lookup_items_order_lines s cart : forall cart' a,
  map order_line cart = map order_line cart' ->
  fold_left (lookup_item s) cart a = fold_left (lookup_item s) cart' a.
Proof.
  induction cart as [ |item cart IH]; intros [ |item' cart'] a H;
    try discriminate; [reflexivity | ].
  cbn [map] in H.
  assert (H1 : order_line item = order_line item') by congruence.
  assert (H2 : map order_line cart = map order_line cart') by congruence.
  simpl.
  rewrite (lookup_item_order_line s a item item' H1). now apply IH.
Qed.

Lemma valid_items_order_lines cart : forall cart',
  map order_line cart = map order_line cart' ->
  forallb valid_item cart = forallb valid_item cart'.
Proof.
  induction cart as [ |item cart IH]; intros [ |item' cart'] H;
    try discriminate; [reflexivity | ].
  cbn [map] in H.
  assert (H1 : order_line item = order_line item') by congruence.
  assert (H2 : map order_line cart = map order_line cart') by congruence.
  simpl. rewrite (IH cart' H2). f_equal.
  destruct item, item'. unfold order_line in H1. simpl in H1.
  injection H1 as -> -> ->. reflexivity.
Qed.

(** The handler's answer and statements depend on the cart through type, id
    and quantity only. *)
Lemma create_intent_order_lines gw orderNumber schedule userId rq rq' s :
  map order_line (items rq) = map order_line (items rq') ->
  shippingAddress rq = shippingAddress rq' ->
  billingAddress rq = billingAddress rq' ->
  notes rq = notes rq' ->
  create_intent gw orderNumber schedule userId rq s
  = create_intent gw orderNumber schedule userId rq' s.
Proof.
  intros Hitems Hship Hbill Hnotes. unfold create_intent, valid_create, lookup_items.
  rewrite <- Hship, <- Hbill, <- Hnotes.
  assert (Hdone : map order_line (completion schedule (items rq))
                  = map order_line (completion schedule (items rq')))
    by (rewrite <- !completion_map; now f_equal).
  rewrite <- (lookup_items_order_lines s _ _ _ Hdone).
  rewrite <- (valid_items_order_lines _ _ Hitems).
  assert (Hlen : List.length (items rq) = List.length (items rq')).
  { rewrite <- (length_map order_line (items rq)), Hitems. apply length_map. }
  rewrite <- Hlen. reflexivity.
Qed.

Lemma insert_order_items_targets order l :
  Forall (fun q => target q = OrderItems) (insert_order_items order l).
Proof. unfold insert_order_items. apply Forall_map. apply Forall_forall. reflexivity. Qed.

Lemma exec_insert_order now userId number total shipping billing notes s :
  order_insert_fails s number total = false ->
  orders (exec now (InsertOrder userId number total shipping billing notes) s)
  = (orders s ++ [mk_order (next_id (map order_id (orders s))) userId number total
                           "pending" "pending" shipping billing notes now])%list.
Proof. intros H. simpl. rewrite H. reflexivity. Qed.

Lemma exec_insert_order_fails now userId number total shipping billing notes s :
  order_insert_fails s number total = true ->
  exec now (InsertOrder userId number total shipping billing notes) s = s.
Proof. intros H. simpl. rewrite H. reflexivity. Qed.

(** A total the handler goes on with is inserted under a fresh number. *)
Lemma chargeable_insert s number total :
  chargeable total = true ->
  order_number_taken s number = false ->
  (total =? 0)%float = false /\ order_insert_fails s number total = false.
Proof.
  unfold chargeable, order_insert_fails. intros Hc Hn.
  apply andb_true_iff in Hc. destruct Hc as [Hz Hnan].
  apply negb_true_iff in Hz, Hnan. rewrite Hn, Hnan. auto.
Qed.

(** The ways a create-intent request can end, by its statements: none; the
    order insert alone, which fails; or the order insert, which succeeds,
    followed by one insert per element of [orderItems] and then by statements
    on payments only. *)
Lemma create_intent_cases gw orderNumber schedule userId rq s :
  let o := create_intent gw orderNumber schedule userId rq s in
  let a := lookup_items s (completion schedule (items rq)) in
  let order := InsertOrder userId orderNumber (totalAmount a)
                           (stored_shipping rq) (stored_billing rq) (notes rq) in
  writes o = []
  \/ (order_insert_fails s orderNumber (totalAmount a) = true /\ writes o = [order])
  \/ (order_insert_fails s orderNumber (totalAmount a) = false
      /\ valid_create rq = true
      /\ exited a = false
      /\ (totalAmount a =? 0)%float = false
      /\ exists tail,
           writes o
           = (order :: insert_order_items (next_id (map order_id (orders s))) (orderItems a)
                    ++ tail)%list
           /\ Forall (fun q => target q = Payments) tail).
Proof.
  cbv zeta. unfold create_intent.
  destruct (valid_create rq); cbn [negb]; [ | left; reflexivity].
  destruct (exited _) eqn:He; [left; reflexivity | ].
  destruct (totalAmount _ =? 0)%float eqn:Ht; [left; reflexivity | ].
  destruct (order_insert_fails s orderNumber _) eqn:Hn.
  - right; left. split; reflexivity.
  - right; right. repeat split.
    destruct (paymentIntents_create gw _ _ _ _) as [pi| ].
    + destruct (reply_throws _); cbn [writes].
      * exists []. split; [rewrite app_nil_r; reflexivity | constructor].
      * eexists. split; [reflexivity | ]. repeat constructor.
    + exists []. cbn [writes]. split; [rewrite app_nil_r; reflexivity | constructor].
Qed.

Lemma create_intent_targets gw orderNumber schedule userId rq s :
  Forall (fun q => target q = Orders \/ target q = OrderItems \/ target q = Payments)
         (writes (create_intent gw orderNumber schedule userId rq s)).
Proof.
  pose proof (create_intent_cases gw orderNumber schedule userId rq s) as Hc.
  cbv zeta in Hc.
  destruct Hc as [Hw|[(_ & Hw)|(_ & _ & _ & _ & tail & Hw & Htail)]]; rewrite Hw.
  - constructor.
  - constructor; [now left | constructor].
  - constructor; [now left | ]. apply Forall_app. split.
    + eapply Forall_impl; [ | apply insert_order_items_targets]. simpl. auto.
    + eapply Forall_impl; [ | exact Htail]. simpl. auto.
Qed.

Lemma run_inserts_orders now userId orderNumber total rq s lastID l tail :
  order_insert_fails s orderNumber total = false ->
  Forall (fun q => target q = Payments) tail ->
  orders (run now (InsertOrder userId orderNumber total (stored_shipping rq)
                               (stored_billing rq) (notes rq)
                   :: insert_order_items lastID l ++ tail) s)
  = (orders s ++ [new_order now userId orderNumber total rq s])%list.
Proof.
  intros Hn Htail. rewrite run_cons, run_orders.
  - now apply exec_insert_order.
  - apply Forall_app. split.
    + eapply Forall_target_neq; [ | apply insert_order_items_targets]. discriminate.
    + eapply Forall_target_neq; [ | exact Htail]. discriminate.
Qed.

Lemma run_inserts_payments now q lastID l s :
  target q = Orders ->
  payments (run now (q :: insert_order_items lastID l) s) = payments s.
Proof.
  intros Hq. apply run_payments. constructor; [congruence | ].
  eapply Forall_target_neq; [ | apply insert_order_items_targets]. discriminate.
Qed.

(** The outcome of a request whose cart resolves, under a fresh order
    number, by the answer of the processor. *)
Lemma create_intent_resolved gw orderNumber schedule userId rq s :
  valid_create rq = true ->
  forallb (purchasable s) (items rq) = true ->
  chargeable (spec_total s (completion schedule (items rq))) = true ->
  order_number_taken s orderNumber = false ->
  let total := spec_total s (completion schedule (items rq)) in
  let lastID := next_id (map order_id (orders s)) in
  let inserts :=
    InsertOrder userId orderNumber total (stored_shipping rq) (stored_billing rq) (notes rq)
    :: insert_order_items lastID
         (orderItems (lookup_items s (completion schedule (items rq)))) in
  create_intent gw orderNumber schedule userId rq s
  = match paymentIntents_create gw (Math_round (total * 100)%float)
                                lastID orderNumber userId with
    | Some paymentIntent =>
        mk_outcome (IntentCreated (pi_client_secret paymentIntent) lastID orderNumber total)
                   (inserts ++ [InsertPayment lastID (pi_id paymentIntent) total "pending"])
                   false
    | None => mk_outcome ErrorCreatingPaymentIntent inserts false
    end.
Proof.
  intros Hv Hall Htot Hn. cbv zeta.
  rewrite <- (purchasable_completion s schedule) in Hall.
  destruct (lookup_items_purchasable s _ Hall) as (Ht & Ha & He).
  destruct (chargeable_insert s orderNumber _ Htot Hn) as [Hz Hins].
  unfold create_intent. rewrite Hv, He, Ht, Hz, Hins. cbn [negb].
  unfold reply, reply_throws. rewrite Ha. reflexivity.
Qed.

(** What one look-up does: nothing; or it sends an item-unavailable answer;
    or it adds the line amount of its item to [totalAmount] and the item to
    [orderItems]. *)
Lemma lookup_item_cases s a item :
  ((exited a = true \/ (valid_item item = false /\ purchasable s item = false))
   /\ lookup_item s a item = a)
  \/ (exited a = false /\ purchasable s item = false
      /\ exists r, ItemUnavailable r = true /\ lookup_item s a item = send r a)
  \/ (exited a = false /\ purchasable s item = true
      /\ exists it,
           lookup_item s a item
           = mk_lookups (totalAmount a + it_price it * Number (it_quantity it))%float
                        (orderItems a ++ [it]) (answered a) false
           /\ catalog_price s item = Some (it_price it)
           /\ it_type it = ci_type item
           /\ it_id it = ci_id item
           /\ it_quantity it = requested_quantity item).
Proof.
  unfold lookup_item, purchasable, catalog_price, requested_quantity, valid_item.
  destruct (exited a) eqn:He; [left; auto | ].
  destruct (ci_type item =? "pet")%string eqn:Epet.
  - apply String.eqb_eq in Epet.
    destruct (find _ (pets s)) as [pet| ] eqn:Ef.
    + apply find_some in Ef. destruct Ef as [_ Hid]. apply Z.eqb_eq in Hid.
      destruct (pet_is_available pet); cbn [negb].
      * right; right. repeat split.
        eexists (mk_item "pet" (pet_id pet) (pet_name pet) (pet_price pet) _).
        cbn [it_price it_quantity it_type it_id]. repeat split; auto.
      * right; left. repeat split. eexists. split; [ | reflexivity]. reflexivity.
    + right; left. repeat split. eexists. split; [ | reflexivity]. reflexivity.
  - destruct (ci_type item =? "product")%string eqn:Eprod; [ | left; auto].
    apply String.eqb_eq in Eprod.
    destruct (find _ (shop_products s)) as [product| ] eqn:Ef.
    + apply find_some in Ef. destruct Ef as [_ Hid]. apply Z.eqb_eq in Hid.
      rewrite Z.ltb_antisym, <- negb_andb.
      destruct (product_is_available product && _); cbn [negb].
      * right; right. repeat split.
        eexists (mk_item "product" (product_id product) (product_name product)
                         (product_price product) _).
        cbn [it_price it_quantity it_type it_id]. repeat split; auto.
      * right; left. repeat split. eexists. split; [ | reflexivity]. reflexivity.
    + right; left. repeat split. eexists. split; [ | reflexivity]. reflexivity.
Qed.

Lemma send_keeps r a :
  totalAmount (send r a) = totalAmount a /\ orderItems (send r a) = orderItems a.
Proof. unfold send. destruct (answered a); split; reflexivity. Qed.





(** The lines of [orderItems]: one per look-up that resolved, in the order
    of completion. *)
Lemma lookup_item_lines s order a item :
  exited a = false ->
  map (item_line order) (orderItems (lookup_item s a item))
  = (map (item_line order) (orderItems a) ++ cart_line s order item)%list.
Proof.
  intros He. unfold cart_line.
  destruct (lookup_item_cases s a item)
    as [([Hx|[_ Hp]] & ->)|[(_ & Hp & r & _ & ->)|(_ & Hp & it & -> & Hc & Hty & Hid & Hq)]].
  - congruence.
  - rewrite Hp, app_nil_r. reflexivity.
  - destruct (send_keeps r a) as [_ ->]. rewrite Hp, app_nil_r. reflexivity.
  - rewrite Hp, Hc. cbn [orderItems]. rewrite map_app. cbn [map].
    unfold item_line. now rewrite Hty, Hid, Hq.
Qed.

Lemma fold_lookup_lines s order done : forall a,
  exited (fold_left (lookup_item s) done a) = false ->
  map (item_line order) (orderItems (fold_left (lookup_item s) done a))
  = (map (item_line order) (orderItems a) ++ cart_lines s order done)%list.
Proof.
  induction done as [ |item done IH]; intros a He; simpl in *.
  - now rewrite app_nil_r.
  - destruct (exited a) eqn:Ea.
    + rewrite (lookup_item_exited s a item Ea), (fold_lookup_exited s done a Ea) in He.
      congruence.
    + rewrite (IH _ He), (lookup_item_lines s order a item Ea).
      unfold cart_lines. now rewrite <- app_assoc.
Qed.

Lemma lookup_items_lines s order done :
  exited (lookup_items s done) = false ->
  map (item_line order) (orderItems (lookup_items s done)) = cart_lines s order done.
Proof. intros He. unfold lookup_items in *. now rewrite (fold_lookup_lines s order done _ He). Qed.

(** ** Order creation: the total *)

(** C1, as the code has it: the total is computed in double-precision
    arithmetic.  For 9007199254740991 pets at 40000 the order carries
    360287970189639614464, while the sum of catalogue price times quantity
    is 360287970189639640000. *)
Lemma create_intent_total_is_rounded :
  let rq := Demo.cart [mk_cart_item "pet" 1 (Some (2 ^ 53 - 1)) []] in
  let o := create_intent Demo.stripe "ORD-1" [] 7 rq Demo.seed in
  valid_create rq = true
  /\ forallb (purchasable Demo.seed) (items rq) = true
  /\ map (fun row => value (total_amount row)) (orders (after 100 o Demo.seed))
     = [Some (360287970189639614464 # 1)]
  /\ exact_total Demo.seed (items rq) = Some (360287970189639640000 # 1).
Proof. vm_compute. repeat split; reflexivity. Qed.

(** C1, amended: when every item of the cart resolves and an order is
    created (the total is a number other than zero, the order number is
    fresh), the row added to the orders table carries as total_amount the
    sum over the cart of catalogue price times requested quantity as
    JavaScript computes it: in double-precision arithmetic, the line amounts
    added in the order in which the look-ups complete.  A request that
    differs only in what else the client put into its cart items (a price,
    say) gets the same answer and issues the same statements. *)
Theorem create_intent_total (gw : gateway) (orderNumber : string) (schedule : list nat)
        (userId now : Z) (rq : create_request) (s : store) :
  valid_create rq = true ->
  forallb (purchasable s) (items rq) = true ->
  chargeable (spec_total s (completion schedule (items rq))) = true ->
  order_number_taken s orderNumber = false ->
  let o := create_intent gw orderNumber schedule userId rq s in
  (exists row,
      orders (after now o s) = (orders s ++ [row])%list
      /\ order_id row = next_id (map order_id (orders s))
      /\ order_user_id row = userId
      /\ order_number row = orderNumber
      /\ total_amount row = spec_total s (completion schedule (items rq)))
  /\ (forall rq',
         map order_line (items rq') = map order_line (items rq) ->
         shippingAddress rq' = shippingAddress rq ->
         billingAddress rq' = billingAddress rq ->
         notes rq' = notes rq ->
         create_intent gw orderNumber schedule userId rq' s = o).
Proof.
  intros Hv Hall Htot Hn o. subst o. split.
  - destruct (chargeable_insert s orderNumber _ Htot Hn) as [_ Hins].
    pose proof (create_intent_resolved gw orderNumber schedule userId rq s Hv Hall Htot Hn)
      as He. cbv zeta in He. rewrite He. unfold after.
    exists (new_order now userId orderNumber
                      (spec_total s (completion schedule (items rq))) rq s).
    split; [ | repeat split].
    destruct (paymentIntents_create gw _ _ _ _) as [pi| ]; cbn [writes].
    + rewrite <- app_comm_cons. apply run_inserts_orders; [exact Hins | ].
      constructor; [reflexivity | constructor].
    + rewrite <- (app_nil_r (insert_order_items _ _)).
      apply run_inserts_orders; [exact Hins | constructor].
  - intros rq' H1 H2 H3 H4. now apply create_intent_order_lines.
Qed.

Lemma create_intent_total_witness :
  let rq := Demo.cart [mk_cart_item "product" 1 (Some 2) [("price", 1)]; Demo.harry] in
  map (fun row => value (total_amount row))
      (orders (after 100 (create_intent Demo.stripe "ORD-1" [1%nat] 7 rq Demo.seed) Demo.seed))
  = [Some (41198 # 1)]
  /\ create_intent Demo.stripe "ORD-1" [1%nat] 7 (Demo.cart [Demo.toy 2; Demo.harry]) Demo.seed
     = create_intent Demo.stripe "ORD-1" [1%nat] 7 rq Demo.seed.
Proof.
  intros rq.
  destruct (create_intent_total Demo.stripe "ORD-1" [1%nat] 7 100 rq Demo.seed)
    as [(row & Ho & _ & _ & _ & Ht) Hind]; try reflexivity.
  split.
  - rewrite Ho. cbn [map app orders Demo.seed]. rewrite Ht. vm_compute. reflexivity.
  - apply Hind; reflexivity.
Defined.

(** C2, as the code has it: Goldie is not available, so the client is told
    so (an ItemUnavailable answer); but the look-up of the toys succeeds, the
    total is not zero, and the handler goes on to insert an order of two
    toys and its order item, in whichever order the two look-ups complete.
    The response that follows the processor's answer is the second one of
    the request: it throws, the process exits, and no payment row is
    written. *)
Theorem create_intent_writes_despite_unavailable_item (schedule : list nat) :
  let rq := Demo.cart [mk_cart_item "pet" 2 None []; Demo.toy 2] in
  let o := create_intent Demo.stripe "ORD-1" schedule 7 rq Demo.seed in
  valid_create rq = true
  /\ forallb (purchasable Demo.seed) (items rq) = false
  /\ sent o = PetNotAvailable "Goldie"
  /\ ItemUnavailable (sent o) = true
  /\ orders (after 100 o Demo.seed)
     = [mk_order 1 7 "ORD-1" 1198 "pending" "pending" Demo.address Demo.address None 100]
  /\ order_items (after 100 o Demo.seed) = [mk_order_item 1 1 "product" 1 2 599]
  /\ payments (after 100 o Demo.seed) = []
  /\ exits o = true
  /\ after 100 o Demo.seed <> Demo.seed.
Proof.
  pose proof (completion_two schedule (mk_cart_item "pet" 2 None []) (Demo.toy 2)) as Hdone.
  cbv zeta. unfold create_intent.
  change (items (Demo.cart [mk_cart_item "pet" 2 None []; Demo.toy 2]))
    with [mk_cart_item "pet" 2 None []; Demo.toy 2].
  destruct Hdone as [-> | ->]; repeat split; try (vm_compute; reflexivity);
    intros H; apply (f_equal (fun st => List.length (orders st))) in H;
    vm_compute in H; discriminate.
Qed.

(** ** Orders and their items *)


Lemma items_have_orders_iff s :
  items_have_orders s = true
  <-> forall i, In i (order_items s) -> In (oi_order_id i) (map order_id (orders s)).
Proof.
  unfold items_have_orders, item_has_order. rewrite forallb_forall.
  split; intros H i Hi; specialize (H i Hi).
  - apply existsb_exists in H. destruct H as (o & Ho & He).
    apply Z.eqb_eq in He. rewrite <- He. now apply in_map.
  - apply in_map_iff in H. destruct H as (o & He & Ho).
    apply existsb_exists. exists o. split; [exact Ho | now apply Z.eqb_eq].
Qed.


Section Rows.

Variable now : Z.

(** Ids of orders are never lost. *)
Lemma exec_order_ids q s :
  incl (map order_id (orders s)) (map order_id (orders (exec now q s))).
Proof.
  destruct q; simpl; try apply incl_refl.
  - destruct (order_insert_fails s number total); simpl; [apply incl_refl | ].
    rewrite map_app. apply incl_appl, incl_refl.
  - rewrite map_map.
    erewrite map_ext; [apply incl_refl | ].
    intros o. simpl. destruct (order_id o =? id); reflexivity.
Qed.



Lemma run_order_ids qs : forall s,
  incl (map order_id (orders s)) (map order_id (orders (run now qs s))).
Proof.
  induction qs as [ |q qs IH]; intros s.
  - apply incl_refl.
  - rewrite run_cons. eapply incl_tran; [apply exec_order_ids | apply IH].
Qed.




End Rows.



Lemma next_id_fresh ids x : In x ids -> x < next_id ids.
Proof.
  unfold next_id. induction ids as [ |y ids IH]; cbn [In fold_right]; [contradiction | ].
  intros [->|H]; [lia | ]. specialize (IH H). lia.
Qed.

Lemma fresh_order_has_no_items s :
  items_have_orders s = true ->
  items_of_order s (next_id (map order_id (orders s))) = [].
Proof.
  intros H. unfold items_of_order.
  pose proof (proj1 (items_have_orders_iff s) H) as Hall.
  induction (order_items s) as [ |i l IH]; simpl; [reflexivity | ].
  assert (Hi : oi_order_id i < next_id (map order_id (orders s)))
    by (apply next_id_fresh, Hall; now left).
  destruct (oi_order_id i =? next_id (map order_id (orders s))) eqn:E.
  - apply Z.eqb_eq in E. lia.
  - apply IH. intros j Hj. apply Hall. now right.
Qed.

(** The item inserts append one row per element of [orderItems], in order. *)
Lemma insert_order_items_rows now order l : forall s,
  exists rows,
    order_items (run now (insert_order_items order l) s) = (order_items s ++ rows)%list
    /\ map row_line rows = map (item_line order) l.
Proof.
  induction l as [ |it l IH]; intros s.
  - exists []. split; [symmetry; apply app_nil_r | reflexivity].
  - cbn [insert_order_items map]. rewrite run_cons.
    destruct (IH (exec now (InsertOrderItem order (it_type it) (it_id it)
                                            (it_quantity it) (it_price it)) s))
      as (rows & Hrows & Hlines).
    eexists (_ :: rows). split.
    + unfold insert_order_items in Hrows. rewrite Hrows. simpl.
      rewrite <- app_assoc. reflexivity.
    + simpl. rewrite Hlines. reflexivity.
Qed.

Lemma rows_of_order_lines order l : forall rows,
  map row_line rows = map (item_line order) l ->
  filter (fun i => oi_order_id i =? order) rows = rows.
Proof.
  induction l as [ |it l IH]; intros [ |i rows] H; try discriminate; [reflexivity | ].
  cbn [map] in H.
  assert (H1 : row_line i = item_line order it) by congruence.
  assert (H2 : map row_line rows = map (item_line order) l) by congruence.
  unfold row_line, item_line in H1. injection H1 as Ho _ _ _ _.
  simpl. rewrite Ho, Z.eqb_refl, (IH rows H2). reflexivity.
Qed.

(** The rows of a created order: the order row appended to orders, and the
    rows of order_items that belong to it, one per element of [orderItems]. *)
Lemma run_order_rows now userId orderNumber total rq s l tail :
  items_have_orders s = true ->
  order_insert_fails s orderNumber total = false ->
  Forall (fun q => target q = Payments) tail ->
  let lastID := next_id (map order_id (orders s)) in
  let s' := run now (InsertOrder userId orderNumber total (stored_shipping rq)
                                 (stored_billing rq) (notes rq)
                     :: insert_order_items lastID l ++ tail) s in
  orders s' = (orders s ++ [new_order now userId orderNumber total rq s])%list
  /\ map row_line (items_of_order s' lastID) = map (item_line lastID) l.
Proof.
  intros Hitems Hn Htail lastID s'. subst lastID s'. split.
  - now apply run_inserts_orders.
  - unfold items_of_order at 1. rewrite run_cons, run_app.
    rewrite run_order_items by (eapply Forall_target_neq; [ | exact Htail]; discriminate).
    destruct (insert_order_items_rows now (next_id (map order_id (orders s))) l
                (exec now (InsertOrder userId orderNumber total
                             (stored_shipping rq) (stored_billing rq) (notes rq)) s))
      as (rows & Hrows & Hlines).
    rewrite Hrows.
    rewrite exec_order_items by discriminate.
    rewrite filter_app. fold (items_of_order s (next_id (map order_id (orders s)))).
    rewrite (fresh_order_has_no_items s Hitems). simpl.
    rewrite (rows_of_order_lines _ _ _ Hlines). exact Hlines.
Qed.




(** * Further properties of the payment routes *)

(** ** create-intent: answers *)

Lemma answered_send r a : answered (send r a) = match answered a with
                                                 | Some r0 => Some r0
                                                 | None => Some r
                                                 end.
Proof. unfold send. destruct (answered a) eqn:E; cbn [answered]; auto. Qed.

(** A look-up either leaves the answer alone or tries to send an
    item-unavailable answer. *)
Lemma lookup_item_answer s a item :
  answered (lookup_item s a item) = answered a
  \/ exists r, ItemUnavailable r = true /\ lookup_item s a item = send r a.
Proof.
  destruct (lookup_item_cases s a item)
    as [(_ & ->)|[(_ & _ & r & Hr & ->)|(_ & _ & it & -> & _)]].
  - now left.
  - right. now exists r.
  - now left.
Qed.

(** A validated item that does not resolve sends its answer and adds
    nothing. *)
Lemma lookup_item_unpurchasable s a item :
  exited a = false ->
  valid_item item = true ->
  purchasable s item = false ->
  exists r, ItemUnavailable r = true /\ lookup_item s a item = send r a.
Proof.
  intros He Hv Hp.
  destruct (lookup_item_cases s a item)
    as [([Hx|[Hv' _]] & _)|[(_ & _ & r & Hr & ->)|(_ & Hp' & _)]]; try congruence.
  now exists r.
Qed.

Lemma lookup_item_answers_unavailable s a item :
  answers_unavailable a -> answers_unavailable (lookup_item s a item).
Proof.
  intros Ha r. destruct (lookup_item_answer s a item) as [He|(r0 & Hr0 & He)].
  - rewrite He. apply Ha.
  - rewrite He, answered_send. destruct (answered a) as [r1| ] eqn:E.
    + intros H. injection H as <-. now apply Ha.
    + intros H. injection H as <-. exact Hr0.
Qed.

Lemma lookup_item_keeps_answer s a item r :
  answered a = Some r -> answered (lookup_item s a item) = Some r.
Proof.
  intros Ha. destruct (lookup_item_answer s a item) as [He|(r0 & _ & He)].
  - now rewrite He.
  - now rewrite He, answered_send, Ha.
Qed.

Lemma fold_lookup_answers_unavailable s done : forall a,
  answers_unavailable a -> answers_unavailable (fold_left (lookup_item s) done a).
Proof.
  induction done as [ |item done IH]; intros a Ha; simpl; [exact Ha | ].
  apply IH. now apply lookup_item_answers_unavailable.
Qed.

Lemma fold_lookup_keeps_answer s done r : forall a,
  answered a = Some r -> answered (fold_left (lookup_item s) done a) = Some r.
Proof.
  induction done as [ |item done IH]; intros a Ha; simpl; [exact Ha | ].
  apply IH. now apply lookup_item_keeps_answer.
Qed.

(** Once an item of a validated cart fails to resolve, an answer has been
    sent. *)
Lemma fold_lookup_answered s done : forall a,
  exited a = false ->
  forallb valid_item done = true ->
  forallb (purchasable s) done = false ->
  answered (fold_left (lookup_item s) done a) <> None.
Proof.
  induction done as [ |item done IH]; intros a He Hv Hp; simpl in *; [discriminate | ].
  apply andb_true_iff in Hv. destruct Hv as [Hv1 Hv].
  destruct (purchasable s item) eqn:E.
  - simpl in Hp. apply IH; [ | exact Hv | exact Hp].
    now destruct (lookup_item_purchasable s a item He E) as (_ & _ & H).
  - destruct (lookup_item_unpurchasable s a item He Hv1 E) as (r & _ & Hs).
    rewrite Hs.
    assert (Hr : exists r', answered (send r a) = Some r').
    { rewrite answered_send. destruct (answered a); eauto. }
    destruct Hr as (r' & Hr'). rewrite (fold_lookup_keeps_answer s done r' _ Hr').
    discriminate.
Qed.

(** Every answer of create-intent is the first one sent, if one was sent
    during the look-ups. *)
Lemma create_intent_sent_answered gw orderNumber schedule userId rq s r :
  valid_create rq = true ->
  answered (lookup_items s (completion schedule (items rq))) = Some r ->
  sent (create_intent gw orderNumber schedule userId rq s) = r.
Proof.
  intros Hv Ha. unfold create_intent. rewrite Hv. cbn [negb].
  destruct (exited _); [unfold reply; now rewrite Ha | ].
  destruct (totalAmount _ =? 0)%float; [unfold reply; now rewrite Ha | ].
  destruct (order_insert_fails s orderNumber _); [unfold reply; now rewrite Ha | ].
  destruct (paymentIntents_create gw _ _ _ _); unfold reply, reply_throws;
    rewrite Ha; reflexivity.
Qed.

Lemma valid_create_items rq : valid_create rq = true -> forallb valid_item (items rq) = true.
Proof.
  unfold valid_create. intros Hv. apply andb_true_iff in Hv. destruct Hv as [Hv _].
  apply andb_true_iff in Hv. now destruct Hv.
Qed.

(** X1: a request with an empty cart, with an item whose id or quantity is
    below one, or with a shipping address of fewer than ten characters once
    trimmed is answered "Validation failed" and issues no statement. *)
Theorem create_intent_rejects_invalid (gw : gateway) (orderNumber : string)
        (schedule : list nat) (userId : Z) (rq : create_request) (s : store) :
  items rq = []
  \/ (exists item, In item (items rq)
                   /\ (ci_id item < 1 \/ exists q, ci_quantity item = Some q /\ q < 1))
  \/ (validator_length (trim (shippingAddress rq)) < 10)%nat ->
  create_intent gw orderNumber schedule userId rq s = mk_outcome ValidationFailed [] false.
Proof.
  intros H. unfold create_intent.
  assert (Hv : valid_create rq = false).
  { unfold valid_create. destruct H as [H|[(item & Hin & H)|H]].
    - rewrite H. reflexivity.
    - apply andb_false_iff. left. apply andb_false_iff. right.
      apply not_true_is_false. intros Hall.
      rewrite forallb_forall in Hall. specialize (Hall item Hin).
      unfold valid_item in Hall. apply andb_true_iff in Hall. destruct Hall as [Hall Hq].
      apply andb_true_iff in Hall. destruct Hall as [_ Hid].
      destruct H as [H|(q & Hq' & H)].
      + apply Z.leb_le in Hid. lia.
      + rewrite Hq' in Hq. apply Z.leb_le in Hq. lia.
    - apply andb_false_iff. right. apply Nat.leb_gt. exact H. }
  rewrite Hv. reflexivity.
Qed.

Lemma create_intent_rejects_invalid_witness :
  create_intent Demo.stripe "ORD-1" [] 7
                (mk_create_request [Demo.toy 0] "   12 Main   " None None) Demo.seed
  = mk_outcome ValidationFailed [] false.
Proof.
  apply create_intent_rejects_invalid. right. left.
  exists (Demo.toy 0). split; [left; reflexivity | ].
  right. exists 0. split; [reflexivity | lia].
Defined.

Lemma unresolved_item_answer gw orderNumber schedule userId rq s :
  valid_create rq = true ->
  forallb (purchasable s) (items rq) = false ->
  ItemUnavailable (sent (create_intent gw orderNumber schedule userId rq s)) = true.
Proof.
  intros Hv Hp.
  pose proof (valid_create_items rq Hv) as Hvi.
  rewrite <- (valid_completion schedule) in Hvi.
  rewrite <- (purchasable_completion s schedule) in Hp.
  pose proof (fold_lookup_answered s _ (mk_lookups 0 [] None false) eq_refl Hvi Hp) as Hne.
  fold (lookup_items s (completion schedule (items rq))) in Hne.
  destruct (answered (lookup_items s (completion schedule (items rq)))) as [r| ] eqn:Ha;
    [ | congruence].
  rewrite (create_intent_sent_answered gw orderNumber schedule userId rq s r Hv Ha).
  apply (fold_lookup_answers_unavailable s (completion schedule (items rq))
           (mk_lookups 0 [] None false)).
  - intros r0 H. discriminate.
  - exact Ha.
Qed.



(** ** create-intent: what is written *)




(** X4: create-intent never writes the catalogue.  In every state the request
    goes through, the pets and the products, their stock included, are those
    it started from: a checkout reserves nothing. *)
Theorem create_intent_reserves_nothing (gw : gateway) (orderNumber : string)
        (schedule : list nat) (userId now : Z) (rq : create_request) (s : store) (k : nat) :
  let sk := during now (writes (create_intent gw orderNumber schedule userId rq s)) k s in
  pets sk = pets s /\ shop_products sk = shop_products s.
Proof.
  intros sk. subst sk. unfold during.
  pose proof (Forall_firstn _ _ k (create_intent_targets gw orderNumber schedule userId rq s))
    as H.
  split.
  - apply run_pets. eapply Forall_impl; [ | exact H]. simpl.
    intros q [Hq|[Hq|Hq]]; congruence.
  - apply run_products. eapply Forall_impl; [ | exact H]. simpl.
    intros q [Hq|[Hq|Hq]]; congruence.
Qed.

(** X5: a request whose order number is already used leaves the database as
    it was: the insert of the order fails on the UNIQUE constraint and
    nothing else is issued.  With a cart that resolves to a total other than
    zero, the answer is "Error creating order". *)
Theorem create_intent_duplicate_number (gw : gateway) (orderNumber : string)
        (schedule : list nat) (userId now : Z) (rq : create_request) (s : store) :
  order_number_taken s orderNumber = true ->
  let o := create_intent gw orderNumber schedule userId rq s in
  after now o s = s
  /\ (valid_create rq = true ->
      forallb (purchasable s) (items rq) = true ->
      (spec_total s (completion schedule (items rq)) =? 0)%float = false ->
      sent o = ErrorCreatingOrder).
Proof.
  intros Hn o. subst o. split.
  - pose proof (create_intent_cases gw orderNumber schedule userId rq s) as Hc.
    cbv zeta in Hc.
    destruct Hc as [Hw|[(Hf & Hw)|(Hf & _)]].
    + unfold after. rewrite Hw. reflexivity.
    + unfold after. rewrite Hw, run_cons, run_nil. now apply exec_insert_order_fails.
    + unfold order_insert_fails in Hf. rewrite Hn in Hf. discriminate.
  - intros Hv Hall Htot.
    rewrite <- (purchasable_completion s schedule) in Hall.
    destruct (lookup_items_purchasable s _ Hall) as (Ht & Ha & He).
    unfold create_intent, order_insert_fails. rewrite Hv, He, Ht, Htot, Hn. cbn [negb orb].
    unfold reply. cbn [sent]. rewrite Ha. reflexivity.
Qed.

Lemma create_intent_duplicate_number_witness :
  let o := create_intent Demo.stripe "ORD-1" [] 8 (Demo.cart [Demo.toy 1]) Demo.ordered in
  after 110 o Demo.ordered = Demo.ordered /\ sent o = ErrorCreatingOrder.
Proof.
  intros o.
  destruct (create_intent_duplicate_number Demo.stripe "ORD-1" [] 8 110 (Demo.cart [Demo.toy 1])
              Demo.ordered eq_refl) as [H1 H2].
  split; [exact H1 | ]. apply H2; reflexivity.
Defined.

(** X6: when the processor refuses the intent, the order and its items have
    already been inserted and stay: the answer is "Error creating payment
    intent", the orders table has gained a pending order, and no payment row
    has been written for it. *)
Theorem create_intent_gateway_failure (gw : gateway) (orderNumber : string)
        (schedule : list nat) (userId now : Z) (rq : create_request) (s : store) :
  valid_create rq = true ->
  forallb (purchasable s) (items rq) = true ->
  chargeable (spec_total s (completion schedule (items rq))) = true ->
  order_number_taken s orderNumber = false ->
  paymentIntents_create gw
    (Math_round (spec_total s (completion schedule (items rq)) * 100)%float)
    (next_id (map order_id (orders s))) orderNumber userId = None ->
  let o := create_intent gw orderNumber schedule userId rq s in
  sent o = ErrorCreatingPaymentIntent
  /\ orders (after now o s)
     = (orders s ++ [new_order now userId orderNumber
                               (spec_total s (completion schedule (items rq))) rq s])%list
  /\ payments (after now o s) = payments s.
Proof.
  intros Hv Hall Htot Hn Hgw o. subst o.
  destruct (chargeable_insert s orderNumber _ Htot Hn) as [_ Hins].
  pose proof (create_intent_resolved gw orderNumber schedule userId rq s Hv Hall Htot Hn)
    as He.
  cbv zeta in He. rewrite Hgw in He. rewrite He. unfold after. cbn [sent writes].
  split; [reflexivity | ]. split.
  - rewrite <- (app_nil_r (insert_order_items _ _)).
    apply run_inserts_orders; [exact Hins | constructor].
  - now apply run_inserts_payments.
Qed.

Lemma create_intent_gateway_failure_witness :
  let down := mk_gateway (fun _ _ _ _ => None) (fun _ => None) (fun _ _ _ => None) in
  let o := create_intent down "ORD-1" [] 7 (Demo.cart [Demo.toy 2]) Demo.seed in
  sent o = ErrorCreatingPaymentIntent
  /\ map order_status (orders (after 100 o Demo.seed)) = ["pending"]
  /\ payments (after 100 o Demo.seed) = [].
Proof.
  intros down o.
  destruct (create_intent_gateway_failure down "ORD-1" [] 7 100 (Demo.cart [Demo.toy 2])
              Demo.seed) as (H1 & H2 & H3); try reflexivity.
  split; [exact H1 | ]. split; [ | exact H3].
  etransitivity; [apply (f_equal (map order_status)); exact H2 | reflexivity].
Defined.

(** X7: when the cart resolves and the processor creates the intent, asked
    for the total times one hundred, rounded, the client gets the intent's
    client secret with the id, number and total of the order; the order row
    is pending with the trimmed shipping address and the billing address, or
    the shipping address when none or a blank one was given; and one payment
    row is added for that order, with the intent's id, the order's total as
    amount and status pending.  The total is the sum of the line amounts as
    JavaScript computes it, in the order in which the look-ups complete. *)
Theorem create_intent_success (gw : gateway) (orderNumber : string) (schedule : list nat)
        (userId now : Z) (rq : create_request) (s : store) (paymentIntent : payment_intent) :
  valid_create rq = true ->
  forallb (purchasable s) (items rq) = true ->
  chargeable (spec_total s (completion schedule (items rq))) = true ->
  order_number_taken s orderNumber = false ->
  let total := spec_total s (completion schedule (items rq)) in
  let lastID := next_id (map order_id (orders s)) in
  paymentIntents_create gw (Math_round (total * 100)%float) lastID orderNumber userId
  = Some paymentIntent ->
  let o := create_intent gw orderNumber schedule userId rq s in
  sent o = IntentCreated (pi_client_secret paymentIntent) lastID orderNumber total
  /\ exits o = false
  /\ orders (after now o s) = (orders s ++ [new_order now userId orderNumber total rq s])%list
  /\ payments (after now o s)
     = (payments s ++ [mk_payment (next_id (map payment_id (payments s))) lastID
                                  (pi_id paymentIntent) total "pending" None None now])%list.
Proof.
  intros Hv Hall Htot Hn total lastID Hgw o. subst o total lastID.
  destruct (chargeable_insert s orderNumber _ Htot Hn) as [_ Hins].
  pose proof (create_intent_resolved gw orderNumber schedule userId rq s Hv Hall Htot Hn)
    as He.
  cbv zeta in He. rewrite Hgw in He. rewrite He. unfold after. cbn [sent writes exits].
  split; [reflexivity | ]. split; [reflexivity | ]. split.
  - rewrite <- app_comm_cons. apply run_inserts_orders; [exact Hins | ].
    constructor; [reflexivity | constructor].
  - rewrite run_app. unfold run at 1. cbn [fold_left exec payments].
    rewrite run_inserts_payments by reflexivity. reflexivity.
Qed.

Lemma create_intent_success_witness :
  let nbsp := String (ascii_of_nat 194) (String (ascii_of_nat 160) EmptyString) in
  let rq := mk_create_request [Demo.toy 2; Demo.harry]
                              (nbsp ++ " 12 Main Street, Delhi " ++ nbsp)
                              (Some "   ") None in
  let o := create_intent Demo.stripe "ORD-1" [1%nat] 7 rq Demo.seed in
  sent o = IntentCreated "secret" 1 "ORD-1" 41198
  /\ exits o = false
  /\ map shipping_address (orders (after 100 o Demo.seed)) = ["12 Main Street, Delhi"]
  /\ map billing_address (orders (after 100 o Demo.seed)) = ["12 Main Street, Delhi"]
  /\ map (fun p => value (amount p)) (payments (after 100 o Demo.seed)) = [Some (41198 # 1)].
Proof.
  intros nbsp rq o.
  destruct (create_intent_success Demo.stripe "ORD-1" [1%nat] 7 100 rq Demo.seed
              (mk_intent "pi_ORD-1" "secret" "requires_payment_method" None))
    as (H1 & H2 & H3 & H4); try reflexivity.
  split; [exact H1 | ]. split; [exact H2 | ]. split; [ | split].
  - etransitivity; [apply (f_equal (map shipping_address)); exact H3 | reflexivity].
  - etransitivity; [apply (f_equal (map billing_address)); exact H3 | reflexivity].
  - etransitivity; [apply (f_equal (map (fun p => value (amount p)))); exact H4 | ].
    vm_compute. reflexivity.
Defined.

(** ** create-intent: the order and its item rows *)




(** ** Checkout, then confirmation *)

Lemma items_quantity_lines order l p : forall lines,
  map (item_line order) l = lines ->
  items_quantity l p
  = fold_right (fun line acc =>
                  (let '(_, ty, id, q, _) := line in
                   if (ty =? "product")%string && (id =? p) then q else 0) + acc)
               0 lines.
Proof.
  induction l as [ |it l IH]; intros lines <-; [reflexivity | ].
  cbn [map fold_right items_quantity]. unfold item_line at 1.
  rewrite <- (IH _ eq_refl). reflexivity.
Qed.

Lemma cart_lines_quantity s order cart p :
  forallb (purchasable s) cart = true ->
  fold_right (fun line acc =>
                (let '(_, ty, id, q, _) := line in
                 if (ty =? "product")%string && (id =? p) then q else 0) + acc)
             0 (cart_lines s order cart)
  = cart_quantity cart p.
Proof.
  induction cart as [ |item cart IH]; intros Hall; [reflexivity | ].
  simpl in Hall. apply andb_true_iff in Hall. destruct Hall as [Hitem Hall].
  unfold cart_lines, cart_quantity in *. cbn [flat_map fold_right].
  unfold cart_line at 1. rewrite Hitem.
  destruct (catalog_price s item) as [price| ] eqn:Ec.
  - cbn [app fold_right]. now rewrite (IH Hall).
  - exfalso. unfold purchasable, catalog_price in *.
    destruct (ci_type item =? "pet")%string.
    + destruct (find _ (pets s)); discriminate.
    + destruct (ci_type item =? "product")%string; [ | discriminate].
      destruct (find _ (shop_products s)); discriminate.
Qed.

(** With every item resolving, [orderItems] holds of each product the
    quantity the cart asks for. *)
Lemma lookup_items_quantity s done p :
  forallb (purchasable s) done = true ->
  items_quantity (orderItems (lookup_items s done)) p = cart_quantity done p.
Proof.
  intros Hall. destruct (lookup_items_purchasable s done Hall) as (_ & _ & He).
  rewrite (items_quantity_lines 0 _ p _ (lookup_items_lines s 0 done He)).
  now apply cart_lines_quantity.
Qed.

Lemma ordered_quantity_lines order l p : forall rows,
  map row_line rows = map (item_line order) l ->
  ordered_quantity rows p = items_quantity l p.
Proof.
  induction l as [ |it l IH]; intros [ |i rows] H; try discriminate; [reflexivity | ].
  cbn [map] in H.
  assert (H1 : row_line i = item_line order it) by congruence.
  assert (H2 : map row_line rows = map (item_line order) l) by congruence.
  simpl. rewrite (IH rows H2). unfold row_line, item_line in H1.
  injection H1 as _ Hty Hid Hq _. rewrite Hty, Hid, Hq. reflexivity.
Qed.

Lemma find_fresh_order now userId orderNumber total rq s :
  find (owned_by userId (next_id (map order_id (orders s))))
       (orders s ++ [new_order now userId orderNumber total rq s])
  = Some (new_order now userId orderNumber total rq s).
Proof.
  assert (H : forall l, (forall o, In o l -> order_id o < next_id (map order_id (orders s))) ->
                        find (owned_by userId (next_id (map order_id (orders s))))
                             (l ++ [new_order now userId orderNumber total rq s])
                        = Some (new_order now userId orderNumber total rq s)).
  { induction l as [ |o l IH]; intros Hl; simpl.
    - unfold owned_by. simpl. rewrite !Z.eqb_refl. reflexivity.
    - assert (Ho : order_id o < next_id (map order_id (orders s))) by (apply Hl; now left).
      unfold owned_by at 1.
      destruct (order_id o =? next_id (map order_id (orders s))) eqn:E.
      + apply Z.eqb_eq in E. lia.
      + simpl. apply IH. intros o' Ho'. apply Hl. now right. }
  apply H. intros o Ho. apply next_id_fresh. now apply in_map.
Qed.

(** X9: an order created by create-intent can be confirmed by its owner with
    the order id the answer carried, and the confirmation takes from the
    stock of every product exactly the quantity the cart asked for. *)
Theorem checkout_then_confirm (gw gw2 : gateway) (orderNumber : string)
        (schedule : list nat) (userId now now2 : Z) (rq : create_request)
        (rq2 : confirm_request) (s : store) (paymentIntent : payment_intent) :
  items_have_orders s = true ->
  valid_create rq = true ->
  forallb (purchasable s) (items rq) = true ->
  chargeable (spec_total s (completion schedule (items rq))) = true ->
  order_number_taken s orderNumber = false ->
  valid_confirm rq2 = true ->
  orderId rq2 = next_id (map order_id (orders s)) ->
  paymentIntents_retrieve gw2 (trim (paymentIntentId rq2)) = Some paymentIntent ->
  pi_status paymentIntent = "succeeded" ->
  let s1 := after now (create_intent gw orderNumber schedule userId rq s) s in
  let c := confirm gw2 userId rq2 s1 in
  sent c = PaymentConfirmed
  /\ shop_products (after now2 c s1)
     = map (fun p => set_stock (stock_quantity p - cart_quantity (items rq) (product_id p)) p)
           (shop_products s).
Proof.
  intros Hitems Hv Hall Htot Hn Hv2 Hid Hr Hs s1 c.
  destruct (chargeable_insert s orderNumber _ Htot Hn) as [_ Hins].
  assert (Hdone : forallb (purchasable s) (completion schedule (items rq)) = true)
    by (now rewrite purchasable_completion).
  destruct (lookup_items_purchasable s _ Hdone) as (Ht & _ & _).
  set (a := lookup_items s (completion schedule (items rq))) in *.
  assert (Hw : exists tail,
             writes (create_intent gw orderNumber schedule userId rq s)
             = (InsertOrder userId orderNumber (totalAmount a) (stored_shipping rq)
                            (stored_billing rq) (notes rq)
                  :: insert_order_items (next_id (map order_id (orders s))) (orderItems a)
                  ++ tail)%list
             /\ Forall (fun q => target q = Payments) tail).
  { pose proof (create_intent_resolved gw orderNumber schedule userId rq s Hv Hall Htot Hn)
      as He. cbv zeta in He. rewrite He. fold a. rewrite Ht.
    destruct (paymentIntents_create gw _ _ _ _) as [pi| ]; cbn [writes].
    - eexists. split; [rewrite <- app_comm_cons; reflexivity | ]. repeat constructor.
    - exists []. split; [now rewrite app_nil_r | constructor]. }
  destruct Hw as (tail & Hw & Htail).
  rewrite <- Ht in Hins.
  destruct (run_order_rows now userId orderNumber (totalAmount a) rq s (orderItems a) tail
              Hitems Hins Htail) as [Ho Hl].
  rewrite <- Hw in Ho, Hl. fold (after now (create_intent gw orderNumber schedule userId rq s) s)
    in Ho, Hl. fold s1 in Ho, Hl.
  assert (Hf : find (owned_by userId (orderId rq2)) (orders s1)
               = Some (new_order now userId orderNumber (totalAmount a) rq s)).
  { rewrite Ho, Hid. apply find_fresh_order. }
  assert (Hc : c = mk_outcome PaymentConfirmed (confirm_writes paymentIntent rq2 s1) false).
  { subst c. apply (confirm_ok gw2 userId rq2 s1 _ _ Hv2 Hr Hs Hf). reflexivity. }
  rewrite Hc. split; [reflexivity | ]. unfold after at 1. cbn [writes].
  rewrite (confirmed_products _ _ _ _ _ (confirm_writes_effect now2 paymentIntent rq2 s1)).
  assert (Hp : shop_products s1 = shop_products s).
  { subst s1. unfold after. apply run_products.
    eapply Forall_impl; [ | apply create_intent_targets]. simpl.
    intros q [Hq|[Hq|Hq]]; congruence. }
  rewrite Hp. apply map_ext. intros p. f_equal. f_equal.
  rewrite Hid. rewrite (ordered_quantity_lines _ _ _ _ Hl).
  unfold a. rewrite (lookup_items_quantity s _ (product_id p) Hdone).
  apply cart_quantity_perm, completion_perm.
Qed.

Lemma checkout_then_confirm_witness :
  let rq := Demo.cart [Demo.toy 2; Demo.harry; Demo.toy 3] in
  let s1 := after 100 (create_intent Demo.stripe "ORD-1" [2%nat; 0%nat] 7 rq Demo.seed)
                  Demo.seed in
  let c := confirm Demo.stripe 7 (mk_confirm_request "pi_ORD-1" 1) s1 in
  sent c = PaymentConfirmed
  /\ map stock_quantity (shop_products (after 200 c s1)) = [45; 30].
Proof.
  intros rq s1 c.
  destruct (checkout_then_confirm Demo.stripe Demo.stripe "ORD-1" [2%nat; 0%nat] 7 100 200 rq
              (mk_confirm_request "pi_ORD-1" 1) Demo.seed
              (mk_intent "pi_ORD-1" "secret" "succeeded" (Some "pm_card")))
    as [H1 H2]; try reflexivity.
  split; [exact H1 | ].
  etransitivity; [apply (f_equal (map stock_quantity)); exact H2 | reflexivity].
Defined.

(** ** The confirmation: refusals *)

(** Every refusal of a confirmation comes before its first write. *)
Lemma confirm_refusal_writes_nothing (gw : gateway) (userId : Z)
        (rq : confirm_request) (s : store) :
  sent (confirm gw userId rq s) <> PaymentConfirmed ->
  writes (confirm gw userId rq s) = [].
Proof.
  unfold confirm.
  destruct (negb (valid_confirm rq)); [reflexivity | ].
  destruct (paymentIntents_retrieve gw _) as [pi| ]; [ | reflexivity].
  destruct (negb (pi_status pi =? "succeeded")%string); [reflexivity | ].
  destruct (find _ (orders s)) as [order| ]; [ | reflexivity].
  destruct (negb (order_status order =? "pending")%string); [reflexivity | ].
  cbn [sent]. congruence.
Qed.

(** X10: nobody confirms somebody else's order.  When no order with the
    given id belongs to the caller, the confirmation is refused and nothing
    is written, whatever the processor says about the intent. *)
Theorem confirm_needs_owner (gw : gateway) (userId : Z)
        (rq : confirm_request) (s : store) :
  (forall o, In o (orders s) -> order_id o = orderId rq -> order_user_id o <> userId) ->
  sent (confirm gw userId rq s) <> PaymentConfirmed
  /\ writes (confirm gw userId rq s) = [].
Proof.
  intros Hown.
  assert (Hne : sent (confirm gw userId rq s) <> PaymentConfirmed).
  { intros Hok. destruct (confirm_inv _ _ _ _ Hok) as (pi & order & _ & _ & _ & Hf & _).
    apply find_some in Hf. destruct Hf as [Hin Ho]. unfold owned_by in Ho.
    apply andb_true_iff in Ho. destruct Ho as [Hid Hu].
    apply Z.eqb_eq in Hid, Hu. exact (Hown order Hin Hid Hu). }
  split; [exact Hne | now apply confirm_refusal_writes_nothing].
Qed.

Lemma confirm_needs_owner_witness :
  sent (confirm Demo.stripe 8 (mk_confirm_request "pi_ORD-1" 1) Demo.ordered)
  <> PaymentConfirmed
  /\ writes (confirm Demo.stripe 8 (mk_confirm_request "pi_ORD-1" 1) Demo.ordered) = [].
Proof.
  apply confirm_needs_owner. simpl. intros o [<-|[]] _. simpl. discriminate.
Defined.

(** ** A pet that has been sold *)

Lemma confirmed_pet_unpurchasable now paymentIntent rq s i item :
  In i (order_items s) ->
  oi_order_id i = orderId rq ->
  item_type i = "pet" ->
  ci_type item = "pet" ->
  ci_id item = item_id i ->
  purchasable (run now (confirm_writes paymentIntent rq s) s) item = false.
Proof.
  intros Hin Ho Hty Hcty Hcid. unfold purchasable. rewrite Hcty, String.eqb_refl.
  rewrite (confirmed_pets _ _ _ _ _ (confirm_writes_effect now paymentIntent rq s)).
  rewrite find_map_update.
  2:{ intros p. destruct (ordered_pet _ (pet_id p)); reflexivity. }
  destruct (find _ (pets s)) as [pet| ] eqn:Ef; [ | reflexivity].
  apply find_some in Ef. destruct Ef as [_ Hid]. apply Z.eqb_eq in Hid.
  simpl.
  assert (Hord : ordered_pet (items_of_order s (orderId rq)) (pet_id pet) = true).
  { unfold ordered_pet. apply existsb_exists. exists i. split.
    - unfold items_of_order. apply filter_In. split; [exact Hin | ]. now apply Z.eqb_eq.
    - rewrite Hty, Hid, Hcid. simpl. apply Z.eqb_refl. }
  rewrite Hord. reflexivity.
Qed.

(** X11: once an order has been confirmed, a pet on it cannot be ordered
    again: every validated create-intent request whose cart names that pet is
    answered with an item-unavailable answer. *)
Theorem sold_pet_cannot_be_ordered (gw gw2 : gateway) (userId userId2 now : Z)
        (orderNumber : string) (schedule : list nat) (rq : confirm_request)
        (rq2 : create_request) (s : store) (i : order_item_row) (item : cart_item) :
  sent (confirm gw userId rq s) = PaymentConfirmed ->
  In i (order_items s) ->
  oi_order_id i = orderId rq ->
  item_type i = "pet" ->
  valid_create rq2 = true ->
  In item (items rq2) ->
  ci_type item = "pet" ->
  ci_id item = item_id i ->
  let s1 := after now (confirm gw userId rq s) s in
  ItemUnavailable (sent (create_intent gw2 orderNumber schedule userId2 rq2 s1)) = true.
Proof.
  intros Hok Hin Ho Hty Hv Hitem Hcty Hcid s1. subst s1.
  destruct (confirm_inv _ _ _ _ Hok) as (pi & order & _ & _ & _ & _ & _ & Hw).
  unfold after. rewrite Hw.
  apply unresolved_item_answer; [exact Hv | ].
  apply not_true_is_false. intros Hall. rewrite forallb_forall in Hall.
  specialize (Hall item Hitem).
  rewrite (confirmed_pet_unpurchasable now pi rq s i item Hin Ho Hty Hcty Hcid) in Hall.
  discriminate.
Qed.

Lemma sold_pet_cannot_be_ordered_witness :
  let s1 := after 200 (confirm Demo.stripe 7 (mk_confirm_request "pi_ORD-1" 1) Demo.ordered)
                  Demo.ordered in
  ItemUnavailable
    (sent (create_intent Demo.stripe "ORD-2" [1%nat] 8 (Demo.cart [Demo.toy 1; Demo.harry]) s1))
  = true.
Proof.
  intros s1.
  apply (sold_pet_cannot_be_ordered Demo.stripe Demo.stripe 7 8 200 "ORD-2" [1%nat]
           (mk_confirm_request "pi_ORD-1" 1) (Demo.cart [Demo.toy 1; Demo.harry])
           Demo.ordered (mk_order_item 2 1 "pet" 1 1 40000) Demo.harry);
    try reflexivity.
  - right. left. reflexivity.
  - right. left. reflexivity.
Defined.

(** ** The webhook and the confirmation *)

Lemma confirm_sent_orders gw userId rq s1 s2 :
  orders s1 = orders s2 ->
  sent (confirm gw userId rq s1) = sent (confirm gw userId rq s2).
Proof.
  intros H. unfold confirm. rewrite H.
  destruct (negb (valid_confirm rq)); [reflexivity | ].
  destruct (paymentIntents_retrieve gw _) as [pi| ]; [ | reflexivity].
  destruct (negb (pi_status pi =? "succeeded")%string); [reflexivity | ].
  destruct (find _ (orders s2)) as [order| ]; [ | reflexivity].
  destruct (negb (order_status order =? "pending")%string); reflexivity.
Qed.

(** X15: a webhook delivery never changes how a confirmation is answered:
    whatever was delivered before, valid or not, the confirmation of an
    order gets the answer it would have got without the delivery; an order
    whose payment the webhook has completed is still pending and can still
    be confirmed. *)
Theorem webhook_does_not_preempt_confirm (gw : gateway) (secret : string)
        (body : request_body) (sig : string) (userId now : Z) (rq : confirm_request)
        (s : store) :
  sent (confirm gw userId rq (after now (webhook gw secret body sig) s))
  = sent (confirm gw userId rq s).
Proof.
  apply confirm_sent_orders. unfold after.
  rewrite <- (firstn_all (writes (webhook gw secret body sig))).
  apply (webhook_tables gw secret body sig now s).
Qed.

(** ** protect *)

Lemma split_no_space t : no_space t = true -> split " " t = [t].
Proof.
  unfold no_space. induction t as [ |c t IH]; simpl; [reflexivity | ].
  intros H. apply andb_true_iff in H. destruct H as [Hc Ht].
  apply negb_true_iff in Hc. rewrite Hc, (IH Ht). reflexivity.
Qed.

Lemma bearer_token_of_header token :
  no_space token = true ->
  bearer_token (Some ("Bearer " ++ token)%string) = Some token.
Proof.
  intros H. unfold bearer_token.
  change (String.prefix "Bearer" ("Bearer " ++ token)%string) with true. cbv iota.
  assert (Hs : split " " ("Bearer " ++ token)%string = "Bearer" :: split " " token).
  { simpl. destruct (split " " token); reflexivity. }
  rewrite Hs, (split_no_space token H). reflexivity.
Qed.

(** X16: the token comes back out of the header a client builds with it:
    for a token without a space, the header [Bearer <token>] yields that
    token. *)
Theorem bearer_token_round_trip (token : string) :
  no_space token = true ->
  bearer_token (Some ("Bearer " ++ token)%string) = Some token.
Proof. apply bearer_token_of_header. Qed.

Lemma bearer_token_round_trip_witness :
  bearer_token (Some "Bearer eyJhbGciOiJIUzI1NiJ9.eyJpZCI6N30.c2ln")
  = Some "eyJhbGciOiJIUzI1NiJ9.eyJpZCI6N30.c2ln".
Proof. apply (bearer_token_round_trip "eyJhbGciOiJIUzI1NiJ9.eyJpZCI6N30.c2ln"). reflexivity. Defined.

Lemma protect_inv env authorization user :
  protect env authorization = inr user ->
  exists token,
    bearer_token authorization = Some token
    /\ token <> ""
    /\ jwt_verify env token = Some (user_id user)
    /\ In user (users env)
    /\ is_active user = true.
Proof.
  unfold protect.
  destruct (bearer_token authorization) as [token| ]; [ | discriminate].
  destruct (token =? "")%string eqn:Et; [discriminate | ].
  destruct (jwt_verify env token) as [decoded_id| ] eqn:Ej; [ | discriminate].
  destruct (find _ (users env)) as [u| ] eqn:Ef; [ | discriminate].
  destruct (is_active u) eqn:Ea; [ | discriminate].
  simpl. intros H. injection H as <-.
  apply find_some in Ef. destruct Ef as [Hin Hid]. apply Z.eqb_eq in Hid.
  exists token. apply String.eqb_neq in Et. rewrite Hid. repeat split; auto.
Qed.

(** X17: [protect] lets a request through only for a user of the users table
    who is active and whose id is the one a non-empty bearer token of the
    request verifies to: no header, another scheme, a token that does not
    verify, an unknown or a deactivated user all end in a 401. *)
Theorem protect_admits_only_active_users (env : auth_env) (authorization : option string)
        (user : user_row) :
  protect env authorization = inr user ->
  exists token,
    bearer_token authorization = Some token
    /\ token <> ""
    /\ jwt_verify env token = Some (user_id user)
    /\ In user (users env)
    /\ is_active user = true.
Proof. apply protect_inv. Qed.

Lemma protect_admits_only_active_users_witness :
  exists token,
    bearer_token (Some "Bearer tok7") = Some token
    /\ token <> ""
    /\ jwt_verify DemoAuth.desk token = Some 7.
Proof.
  destruct (protect_admits_only_active_users DemoAuth.desk (Some "Bearer tok7")
              (mk_user 7 "asha" "asha@example.com" "Asha Rao" "user" true) eq_refl)
    as (token & H1 & H2 & H3 & _).
  exists token. repeat split; assumption.
Defined.

(** X18: with the header [Bearer <token>] of a token that verifies to the id
    of a user of the users table, [protect] hands that user to the route
    when the user is active, and answers "User not found or inactive" when
    the user has been deactivated. *)
Theorem protect_by_token (env : auth_env) (token : string) (user : user_row) :
  no_space token = true ->
  token <> "" ->
  jwt_verify env token = Some (user_id user) ->
  find (fun u => user_id u =? user_id user) (users env) = Some user ->
  protect env (Some ("Bearer " ++ token)%string)
  = if is_active user then inr user else inl UserNotFoundOrInactive.
Proof.
  intros Hsp Hne Hj Hf. unfold protect.
  rewrite (bearer_token_of_header token Hsp).
  apply String.eqb_neq in Hne. rewrite Hne, Hj, Hf.
  destruct (is_active user); reflexivity.
Qed.

Lemma protect_by_token_witness :
  protect DemoAuth.desk (Some "Bearer tok9") = inl UserNotFoundOrInactive.
Proof.
  apply (protect_by_token DemoAuth.desk "tok9"
           (mk_user 9 "ravi" "ravi@example.com" "Ravi Jain" "user" false));
    [reflexivity | discriminate | reflexivity | reflexivity].
Defined.

(** ** The private routes *)

Lemma create_intent_orders gw orderNumber schedule userId now rq s :
  let o := create_intent gw orderNumber schedule userId rq s in
  orders (after now o s) = orders s
  \/ exists row, orders (after now o s) = (orders s ++ [row])%list
                 /\ order_user_id row = userId.
Proof.
  intros o. subst o.
  pose proof (create_intent_cases gw orderNumber schedule userId rq s) as Hc.
  cbv zeta in Hc.
  destruct Hc as [Hw|[(Hn & Hw)|(Hn & _ & _ & _ & tail & Hw & Htail)]].
  - left. unfold after. rewrite Hw. reflexivity.
  - left. unfold after.
    rewrite Hw, run_cons, (exec_insert_order_fails _ _ _ _ _ _ _ _ Hn). reflexivity.
  - right. unfold after. rewrite Hw.
    rewrite (run_inserts_orders now userId orderNumber _ rq s _ _ tail Hn Htail).
    eexists. split; reflexivity.
Qed.

(** X19: an order inserted through the create-intent route belongs to the
    user the request's bearer token verifies to: the owner is never taken
    from the body of the request. *)
Theorem route_orders_belong_to_token_user (env : auth_env) (gw : gateway)
        (orderNumber : string) (schedule : list nat) (authorization : option string)
        (rq : create_request) (s : store) (o : outcome) (now : Z) :
  create_intent_route env gw orderNumber schedule authorization rq s = inr o ->
  exists token,
    bearer_token authorization = Some token
    /\ forall row, In row (orders (after now o s)) ->
                   In row (orders s) \/ jwt_verify env token = Some (order_user_id row).
Proof.
  unfold create_intent_route.
  destruct (protect env authorization) as [e|user] eqn:Hp; [discriminate | ].
  intros H. injection H as <-.
  destruct (protect_inv env authorization user Hp) as (token & Ht & _ & Hj & _).
  exists token. split; [exact Ht | ]. intros row Hrow.
  destruct (create_intent_orders gw orderNumber schedule (user_id user) now rq s)
    as [He|(row' & He & Hu)]; rewrite He in Hrow.
  - now left.
  - apply in_app_or in Hrow. destruct Hrow as [Hrow|[<-|[]]]; [now left | ].
    right. now rewrite Hu.
Qed.

Lemma route_orders_belong_to_token_user_witness :
  exists token,
    bearer_token (Some "Bearer tok7") = Some token
    /\ forall row,
         In row (orders (after 100 (create_intent Demo.stripe "ORD-1" [] 7
                                      (Demo.cart [Demo.toy 2]) Demo.seed) Demo.seed)) ->
         In row (orders Demo.seed)
         \/ jwt_verify DemoAuth.desk token = Some (order_user_id row).
Proof.
  apply (route_orders_belong_to_token_user DemoAuth.desk Demo.stripe "ORD-1" []
           (Some "Bearer tok7") (Demo.cart [Demo.toy 2]) Demo.seed).
  reflexivity.
Defined.

(** ** The payment history *)

Lemma history_of_order_in s o r :
  In r (history_of_order s o) ->
  h_id r = order_id o /\ h_order_number r = order_number o
  /\ h_total_amount r = total_amount o /\ h_status r = order_status o
  /\ h_payment_status r = payment_status o
  /\ match h_payment_status_detail r with
     | None => payments_of_order s (order_id o) = []
     | Some st =>
         exists p, In p (payments s) /\ payment_order_id p = order_id o
                   /\ status p = st
                   /\ h_payment_method r = payment_method p
                   /\ h_transaction_id r = transaction_id p
     end.
Proof.
  unfold history_of_order.
  destruct (payments_of_order s (order_id o)) as [ |p0 ps] eqn:Ep.
  - intros [<-|[]]. simpl. repeat split.
  - intros H. apply in_map_iff in H. destruct H as (p & <- & Hp). simpl.
    repeat split. exists p.
    assert (Hin : In p (payments_of_order s (order_id o))) by (rewrite Ep; exact Hp).
    unfold payments_of_order in Hin. apply filter_In in Hin. destruct Hin as [Hin Hid].
    apply Z.eqb_eq in Hid. repeat split; assumption.
Qed.

Lemma history_of_order_nonempty s o : exists r, In r (history_of_order s o).
Proof.
  unfold history_of_order. destruct (payments_of_order s (order_id o)) as [ |p ps].
  - eexists. left. reflexivity.
  - eexists. left. reflexivity.
Qed.

Lemma history_in userId s r :
  In r (history userId s) ->
  exists o, In o (orders s) /\ order_user_id o = userId /\ In r (history_of_order s o).
Proof.
  unfold history. intros H. apply in_flat_map in H. destruct H as (o & Ho & Hr).
  apply filter_In in Ho. destruct Ho as [Ho Hu]. apply Z.eqb_eq in Hu.
  exists o. repeat split; assumption.
Qed.

(** X20: the payment history of a user lists that user's orders and nothing
    else.  Every row is an order of the user with its number, total and
    statuses, joined with one of the payment rows of that very order or, if
    the order has none, with no payment details; and every order of the
    user has a row, an order without a payment row included. *)
Theorem history_lists_own_orders (userId : Z) (s : store) :
  (forall r, In r (history userId s) ->
     exists o, In o (orders s) /\ order_user_id o = userId
               /\ h_id r = order_id o /\ h_order_number r = order_number o
               /\ h_total_amount r = total_amount o /\ h_status r = order_status o
               /\ h_payment_status r = payment_status o
               /\ match h_payment_status_detail r with
                  | None => payments_of_order s (order_id o) = []
                  | Some st =>
                      exists p, In p (payments s) /\ payment_order_id p = order_id o
                                /\ status p = st
                                /\ h_payment_method r = payment_method p
                                /\ h_transaction_id r = transaction_id p
                  end)
  /\ (forall o, In o (orders s) -> order_user_id o = userId ->
        exists r, In r (history userId s) /\ h_id r = order_id o).
Proof.
  split.
  - intros r Hr. destruct (history_in userId s r Hr) as (o & Ho & Hu & Hin).
    exists o. split; [exact Ho | ]. split; [exact Hu | ]. now apply history_of_order_in.
  - intros o Ho Hu. destruct (history_of_order_nonempty s o) as (r & Hr).
    exists r. split.
    + unfold history. apply in_flat_map. exists o. split; [ | exact Hr].
      apply filter_In. split; [exact Ho | now apply Z.eqb_eq].
    + now destruct (history_of_order_in s o r Hr) as [H _].
Qed.

(** X21: through its route the history shows a caller only orders of the
    user the bearer token verifies to. *)
Theorem history_route_shows_own_orders (env : auth_env) (authorization : option string)
        (s : store) (rows : list history_row) :
  history_route env authorization s = inr rows ->
  exists token,
    bearer_token authorization = Some token
    /\ forall r, In r rows ->
                 exists o, In o (orders s)
                           /\ jwt_verify env token = Some (order_user_id o)
                           /\ h_id r = order_id o.
Proof.
  unfold history_route.
  destruct (protect env authorization) as [e|user] eqn:Hp; [discriminate | ].
  intros H. injection H as <-.
  destruct (protect_inv env authorization user Hp) as (token & Ht & _ & Hj & _).
  exists token. split; [exact Ht | ]. intros r Hr.
  destruct (history_in _ s r Hr) as (o & Ho & Hu & Hin).
  exists o. split; [exact Ho | ]. split; [now rewrite Hu | ].
  now destruct (history_of_order_in s o r Hin) as [H _].
Qed.

Lemma history_route_shows_own_orders_witness :
  exists token,
    bearer_token (Some "Bearer tok7") = Some token
    /\ forall r, In r (history 7 Demo.two_orders) ->
                 exists o, In o (orders Demo.two_orders)
                           /\ jwt_verify DemoAuth.desk token = Some (order_user_id o)
                           /\ h_id r = order_id o.
Proof.
  apply (history_route_shows_own_orders DemoAuth.desk (Some "Bearer tok7") Demo.two_orders).
  reflexivity.
Defined.

(** ** Orders side by side *)

(** X22: confirming one order leaves every other order as confirmable as it
    was: a confirmation that would have succeeded before another order was
    confirmed still succeeds after it, although the first confirmation may
    have sold the same pet or taken the stock. *)
Theorem confirm_ignores_other_confirmations (gw gw2 : gateway) (userId userId2 now : Z)
        (rq rq2 : confirm_request) (s : store) :
  sent (confirm gw userId rq s) = PaymentConfirmed ->
  sent (confirm gw2 userId2 rq2 s) = PaymentConfirmed ->
  orderId rq2 <> orderId rq ->
  sent (confirm gw2 userId2 rq2 (after now (confirm gw userId rq s) s)) = PaymentConfirmed.
Proof.
  intros Hok Hok2 Hne.
  destruct (confirm_inv _ _ _ _ Hok) as (pi & order & _ & _ & _ & _ & _ & Hw).
  destruct (confirm_inv _ _ _ _ Hok2) as (pi2 & order2 & Hv2 & Hr2 & Hs2 & Hf2 & Hp2 & _).
  unfold after. rewrite Hw.
  assert (Hf : find (owned_by userId2 (orderId rq2))
                    (orders (run now (confirm_writes pi rq s) s)) = Some order2).
  { rewrite (confirmed_orders _ _ _ _ _ (confirm_writes_effect now pi rq s)).
    rewrite find_map_update.
    2:{ intros o. destruct (order_id o =? orderId rq); reflexivity. }
    rewrite Hf2. simpl. apply find_some in Hf2. destruct Hf2 as [_ Ho].
    unfold owned_by in Ho. apply andb_true_iff in Ho. destruct Ho as [Ho _].
    apply Z.eqb_eq in Ho. rewrite Ho.
    apply Z.eqb_neq in Hne. rewrite Hne. reflexivity. }
  rewrite (confirm_ok gw2 userId2 rq2 _ pi2 order2 Hv2 Hr2 Hs2 Hf Hp2). reflexivity.
Qed.

Lemma confirm_ignores_other_confirmations_witness :
  let s := after 110 (create_intent Demo.stripe "ORD-2" [] 8 (Demo.cart [Demo.harry])
                        Demo.ordered) Demo.ordered in
  let first := confirm Demo.stripe 7 (mk_confirm_request "pi_ORD-1" 1) s in
  sent (confirm Demo.stripe 8 (mk_confirm_request "pi_ORD-2" 2) (after 200 first s))
  = PaymentConfirmed.
Proof.
  intros s first.
  apply (confirm_ignores_other_confirmations Demo.stripe Demo.stripe 7 8 200
           (mk_confirm_request "pi_ORD-1" 1) (mk_confirm_request "pi_ORD-2" 2) s);
    [reflexivity | reflexivity | discriminate].
Defined.

(** ** Invariants of the statements *)

Lemma exec_order_consistent now q s :
  confirms_and_pays q ->
  Forall order_consistent (orders s) -> Forall order_consistent (orders (exec now q s)).
Proof.
  intros Hq Hs. destruct q; simpl; try exact Hs.
  - destruct (order_insert_fails s number total); [exact Hs | ]. simpl.
    apply Forall_app. split; [exact Hs | ]. constructor; [ | constructor].
    left. split; reflexivity.
  - simpl in Hq. destruct Hq as [-> ->]. apply Forall_map.
    eapply Forall_impl; [ | exact Hs]. simpl. intros o Ho.
    destruct (order_id o =? id); [ | exact Ho]. right. split; reflexivity.
Qed.

Lemma run_order_consistent now qs : forall s,
  Forall confirms_and_pays qs ->
  Forall order_consistent (orders s) -> Forall order_consistent (orders (run now qs s)).
Proof.
  induction qs as [ |q qs IH]; intros s Hqs Hs; [exact Hs | ].
  inversion Hqs; subst. rewrite run_cons. apply IH; [assumption | ].
  now apply exec_order_consistent.
Qed.

Lemma create_intent_confirms_and_pays gw orderNumber schedule userId rq s :
  Forall confirms_and_pays (writes (create_intent gw orderNumber schedule userId rq s)).
Proof.
  pose proof (create_intent_cases gw orderNumber schedule userId rq s) as Hc.
  cbv zeta in Hc.
  destruct Hc as [Hw|[(_ & Hw)|(_ & _ & _ & _ & tail & Hw & Htail)]]; rewrite Hw.
  - constructor.
  - repeat constructor.
  - constructor; [exact I | ]. apply Forall_app. split.
    + unfold insert_order_items. apply Forall_map, Forall_forall. intros it _. exact I.
    + eapply Forall_impl; [ | exact Htail]. intros q Hq. destruct q; try exact I.
      discriminate.
Qed.

Lemma confirm_confirms_and_pays gw userId rq s :
  Forall confirms_and_pays (writes (confirm gw userId rq s)).
Proof.
  unfold confirm.
  destruct (negb (valid_confirm rq)); [constructor | ].
  destruct (paymentIntents_retrieve gw _) as [pi| ]; [ | constructor].
  destruct (negb (pi_status pi =? "succeeded")%string); [constructor | ].
  destruct (find _ (orders s)) as [order| ]; [ | constructor].
  destruct (negb (order_status order =? "pending")%string); [constructor | ].
  cbn [writes]. constructor; [split; reflexivity | ]. constructor; [exact I | ].
  eapply Forall_impl; [ | apply item_update_targets]. simpl.
  intros q H. destruct q; simpl in *; try exact I.
  destruct H as [H|H]; discriminate.
Qed.

Lemma webhook_confirms_and_pays gw secret body sig :
  Forall confirms_and_pays (writes (webhook gw secret body sig)).
Proof.
  destruct (webhook_cases gw secret body sig) as [-> | (st & intent & ->)];
    repeat constructor.
Qed.

(** X23: the payment routes keep every order either pending with payment
    pending or confirmed with payment paid.  If all orders are in one of
    these two states, they are so in every state any of the three handlers
    goes through: no order is ever confirmed and unpaid, or paid and
    pending. *)
Theorem routes_keep_orders_consistent (gw : gateway) (orderNumber secret : string)
        (body : request_body) (sig : string) (schedule : list nat)
        (userId now : Z) (rq : create_request) (rq2 : confirm_request) (s : store)
        (k : nat) :
  Forall order_consistent (orders s) ->
  Forall order_consistent
         (orders (during now (writes (create_intent gw orderNumber schedule userId rq s)) k s))
  /\ Forall order_consistent (orders (during now (writes (confirm gw userId rq2 s)) k s))
  /\ Forall order_consistent (orders (during now (writes (webhook gw secret body sig)) k s)).
Proof.
  intros Hs. unfold during. repeat split; apply run_order_consistent; try exact Hs;
    apply Forall_firstn.
  - apply create_intent_confirms_and_pays.
  - apply confirm_confirms_and_pays.
  - apply webhook_confirms_and_pays.
Qed.

Lemma routes_keep_orders_consistent_witness :
  Forall order_consistent
         (orders (during 200 (writes (confirm Demo.stripe 7 (mk_confirm_request "pi_ORD-1" 1)
                                              Demo.two_orders)) 1 Demo.two_orders)).
Proof.
  destruct (routes_keep_orders_consistent Demo.stripe "ORD-3" "whsec" (RawBody "pi_ORD-1")
              "good" [] 7 200 (Demo.cart [Demo.toy 1]) (mk_confirm_request "pi_ORD-1" 1)
              Demo.two_orders 1) as (_ & H & _).
  - repeat constructor; left; split; reflexivity.
  - exact H.
Defined.

Lemma exec_pets_one_way now q s :
  exists f, pets (exec now q s) = map f (pets s)
            /\ forall p, f p = p \/ f p = set_pet_available false p.
Proof.
  destruct q; simpl;
    try (exists (fun p => p); split; [symmetry; apply map_id | intros p; now left]).
  - destruct (order_insert_fails s number total);
      exists (fun p => p); (split; [symmetry; apply map_id | intros p; now left]).
  - eexists. split; [reflexivity | ]. intros p. simpl.
    destruct (pet_id p =? id); [now right | now left].
Qed.

(** X24: no statement the payment routes issue makes a pet available again
    or changes a pet otherwise: after any sequence of them the pets table
    holds the same rows in the same order, each either untouched or marked
    unavailable. *)
Theorem payment_statements_never_release_pets (now : Z) (qs : list stmt) (s : store) :
  exists f, pets (run now qs s) = map f (pets s)
            /\ forall p, f p = p \/ f p = set_pet_available false p.
Proof.
  revert s. induction qs as [ |q qs IH]; intros s.
  - exists (fun p => p). split; [symmetry; apply map_id | intros p; now left].
  - rewrite run_cons.
    destruct (exec_pets_one_way now q s) as (g & Hg & Hg').
    destruct (IH (exec now q s)) as (f & Hf & Hf').
    exists (fun p => f (g p)). split.
    + rewrite Hf, Hg, map_map. reflexivity.
    + intros p. destruct (Hg' p) as [->| ->].
      * apply Hf'.
      * destruct (Hf' (set_pet_available false p)) as [->| ->]; now right.
Qed.
